(** * AI-LTH frontend: query sessions and response rendering

    A shallow embedding of the React components of the AI-LTH client
    (ChatBox, MessageBubble, ImageUploader, CameraCapture, AutoComplete,
    VoiceInput, Sidebar and App) and the properties of the session and
    rendering pipeline that are stated about them.

    Conventions of the embedding.
    - A component's [useState] cells are the fields of a record; an event
      handler is a function from the state it runs in to the state after
      the batched updates it queues.  React re-renders between two events,
      so every handler reads the state the previous one left.
    - An [async] handler is cut at its [await]: the part before it is the
      handler proper (it returns the request it issues), the part after it
      a continuation run when the promise settles.
    - A render function returns the element tree of the component as a list
      of nodes; children are kept as the JavaScript values they are.
    - JavaScript strings are [string]s, a character standing for one code
      unit; JSON numbers are integers, of which only the comparison with
      zero is ever observed. *)

From Stdlib Require Import ZArith Ascii String List Bool Lia.
From stdpp Require Import base tactics option list strings gmap.
Import ListNotations.

Local Open Scope Z_scope.
Local Set Warnings "-register-all".

(** ** JavaScript values *)

Module Js.

(** A value as [JSON.parse] (axios) produces it, or [undefined]. *)
Inductive value :=
| VUndef
| VNull
| VBool (b : bool)
| VNum (n : Z)
| VStr (s : string)
| VArr (items : list value)
| VObj (fields : list (string * value)).

(** [ToBoolean]. *)
Definition truthy (v : value) : bool :=
  match v with
  | VUndef | VNull => false
  | VBool b => b
  | VNum n => negb (n =? 0)
  | VStr s => negb (String.eqb s "")
  | VArr _ | VObj _ => true
  end.

(** [a || b]. *)
Definition js_or (a b : value) : value := if truthy a then a else b.

(** The own property [k] of a parsed object. *)
Fixpoint lookup_field (k : string) (fields : list (string * value)) : value :=
  match fields with
  | [] => VUndef
  | (k', v) :: rest => if String.eqb k' k then v else lookup_field k rest
  end.

(** [v.k] for a named property [k] (not an index, not [length]) of a
    receiver that is neither [null] nor [undefined]. *)
Definition get (v : value) (k : string) : value :=
  match v with
  | VObj fields => lookup_field k fields
  | _ => VUndef
  end.

(** [v?.k]. *)
Definition optget (v : value) (k : string) : value :=
  match v with
  | VUndef | VNull => VUndef
  | _ => get v k
  end.

Definition nullish (v : value) : bool :=
  match v with VUndef | VNull => true | _ => false end.

(** [v !== 'lit']: only a string can be strictly equal to a string. *)
Definition strict_neq_str (v : value) (lit : string) : bool :=
  match v with
  | VStr s => negb (String.eqb s lit)
  | _ => true
  end.

(** [Array.isArray(v)]. *)
Definition isArray (v : value) : bool :=
  match v with VArr _ => true | _ => false end.

(** [v[0]] on a receiver that is neither [null] nor [undefined]: the
    first code unit of a string, the first element of an array, the
    property named 0 of an object. *)
Definition index0 (v : value) : value :=
  match v with
  | VStr (String c _) => VStr (String c "")
  | VArr (x :: _) => x
  | VObj fields => lookup_field "0" fields
  | _ => VUndef
  end.

(** [v.length] on such a receiver. *)
Definition length (v : value) : value :=
  match v with
  | VStr s => VNum (Z.of_nat (String.length s))
  | VArr items => VNum (Z.of_nat (List.length items))
  | VObj fields => lookup_field "length" fields
  | _ => VUndef
  end.

Section Relational.
(** [x > 0] converts [x] with [ToNumber].  For strings, arrays and
    objects that conversion parses text; its outcome is left as a
    parameter, and nothing below depends on it. *)
Variable coerced_gt0 : value -> bool.

Definition gt0 (x : value) : bool :=
  match x with
  | VUndef | VNull => false
  | VBool b => b
  | VNum n => 0 <? n
  | VStr _ | VArr _ | VObj _ => coerced_gt0 x
  end.
End Relational.

(** Whether React accepts [v] as a child: text, numbers, booleans, [null]
    and [undefined] are drawn or skipped, an array is drawn child by child,
    and a plain object makes the render throw. *)
Fixpoint renderable (v : value) : bool :=
  match v with
  | VObj _ => false
  | VArr items => forallb renderable items
  | _ => true
  end.

End Js.

(** ** Element trees *)

Module Dom.
Import Js.

(** The nodes the views are made of.  Each carries the expression placed
    in it; a button carries its label, written without its pictogram, and
    its [disabled] attribute. *)
Inductive node :=
| PlainText (child : value)
| MedicineName (child : value)
| GenericLine (child : value)
| ManufacturerLine (child : value)
| OverviewSection (child : value)
| UsesSection (child : value)
| SideEffectsSection (items : list value)
| WarningsSection (child : value)
| DisclaimerBox (child : value)
| Heading (text : string)
| TimeStamp (t : Z)
| RawChild (child : value)
| FileInput
| Image (src : value)
| Video
| Button (label : string) (disabled : bool)
| ErrorBox (child : value)
| DebugBox (text : string).

(** The text the backend sends for a field it has nothing to say about. *)
Definition sentinel : string := "Information not available".

(** [{cond && rest}] in JSX where [cond] is a value: a falsy operand is
    itself the child, and React prints a falsy number. *)
Definition guard (cond : value) (rest : list node) : list node :=
  if truthy cond then rest
  else match cond with VNum _ => [RawChild cond] | _ => [] end.

(** The same where the operand is a boolean ([!==], [>], [Array.isArray]). *)
Definition guardb (cond : bool) (rest : list node) : list node :=
  if cond then rest else [].

(** The side-effects sections of a tree, each as the items it lists, and
    the uses sections, each as the text it shows. *)
Definition side_effects_sections (tree : list node) : list (list value) :=
  flat_map (fun n => match n with SideEffectsSection items => [items] | _ => [] end)
    tree.

Definition uses_sections (tree : list node) : list value :=
  flat_map (fun n => match n with UsesSection v => [v] | _ => [] end) tree.

Definition error_boxes (tree : list node) : list value :=
  flat_map (fun n => match n with ErrorBox v => [v] | _ => [] end) tree.

(** A button with the given label is in the tree and can be clicked. *)
Definition clickable (label : string) (tree : list node) : bool :=
  existsb (fun n => match n with
                    | Button l disabled => String.eqb l label && negb disabled
                    | _ => false
                    end) tree.

(** The generic-name and manufacturer lines of a tree, and the plain
    texts, each as the expression it shows. *)
Definition generic_lines (tree : list node) : list value :=
  flat_map (fun n => match n with GenericLine v => [v] | _ => [] end) tree.

Definition manufacturer_lines (tree : list node) : list value :=
  flat_map (fun n => match n with ManufacturerLine v => [v] | _ => [] end) tree.

Definition plain_texts (tree : list node) : list value :=
  flat_map (fun n => match n with PlainText v => [v] | _ => [] end) tree.

(** The buttons of a tree, each with its label and [disabled] attribute. *)
Definition buttons (tree : list node) : list (string * bool) :=
  flat_map (fun n => match n with Button l d => [(l, d)] | _ => [] end) tree.

(** The render of a node goes through: every expression it places among
    its children is one React accepts.  The source of an image is an
    attribute, not a child. *)
Definition node_renders (n : node) : bool :=
  match n with
  | PlainText v | MedicineName v | GenericLine v | ManufacturerLine v
  | OverviewSection v | UsesSection v | WarningsSection v | DisclaimerBox v
  | RawChild v | ErrorBox v => renderable v
  | SideEffectsSection items => forallb renderable items
  | Heading _ | TimeStamp _ | FileInput | Image _ | Video | Button _ _
  | DebugBox _ => true
  end.

Definition tree_renders (tree : list node) : bool := forallb node_renders tree.

End Dom.

(** ** MessageBubble.jsx *)

Module MessageBubble.
Import Js Dom.

Inductive msg_type := User | Ai.

(** A message object as ChatBox builds it; an absent [data] is
    [VUndef], an absent [error] is [false]. *)
Record message := {
  type : msg_type;
  content : value;
  data : value;
  error : bool;
  timestamp : Z
}.

Section Render.
Variable coerced_gt0 : value -> bool.

(** Lines 25-86: the structured medicine explanation. *)
Definition structured (d : value) : list node :=
  [MedicineName (get d "medicine_name")]
  ++ guard (get d "generic_name")
       (guardb (strict_neq_str (get d "generic_name") "N/A")
          [GenericLine (get d "generic_name")])
  ++ guard (get d "manufacturer")
       (guardb (strict_neq_str (get d "manufacturer") "N/A")
          [ManufacturerLine (get d "manufacturer")])
  ++ guard (get d "description") [OverviewSection (get d "description")]
  ++ guard (get d "uses")
       (guardb (strict_neq_str (get d "uses") "N/A")
          (guardb (strict_neq_str (get d "uses") "Information not available")
             [UsesSection (get d "uses")]))
  ++ guard (get d "side_effects")
       (guardb (gt0 coerced_gt0 (length (get d "side_effects")))
          (guardb (strict_neq_str (index0 (get d "side_effects"))
                     "Information not available")
             [SideEffectsSection
                (match get d "side_effects" with
                 | VArr items => items
                 | other => [other]
                 end)]))
  ++ guard (get d "warnings") [WarningsSection (get d "warnings")]
  ++ guard (get d "disclaimer") [DisclaimerBox (get d "disclaimer")].

Definition MessageBubble (m : message) : list node :=
  let isUser := match type m with User => true | Ai => false end in
  let isError := error m in
  guardb isUser [PlainText (content m)]
  ++ guardb (negb isUser)
       (guardb (negb isError) (guard (data m) (structured (data m))))
  ++ guardb (negb isUser) (guardb isError [PlainText (content m)])
  ++ guardb (negb isUser)
       (guardb (negb isError)
          (guardb (negb (truthy (data m))) [PlainText (content m)]))
  ++ [TimeStamp (timestamp m)].
End Render.

End MessageBubble.

(** ** The result card of ImageUploader.jsx and CameraCapture.jsx

    Lines 87-148 of ImageUploader.jsx and lines 193-254 of
    CameraCapture.jsx are the same markup up to the heading. *)

Module ResultCard.
Import Js Dom.

Definition card (heading : string) (result : value) : list node :=
  guard result
    ([Heading heading; MedicineName (get result "medicine_name")]
     ++ guard (get result "generic_name")
          (guardb (strict_neq_str (get result "generic_name") "N/A")
             [GenericLine (get result "generic_name")])
     ++ guard (get result "manufacturer")
          (guardb (strict_neq_str (get result "manufacturer") "N/A")
             [ManufacturerLine (get result "manufacturer")])
     ++ guard (get result "description")
          [OverviewSection (get result "description")]
     ++ guard (get result "uses")
          (guardb (strict_neq_str (get result "uses") "N/A")
             (guardb (strict_neq_str (get result "uses")
                        "Information not available")
                [UsesSection (get result "uses")]))
     ++ guard (get result "side_effects")
          (guardb (isArray (get result "side_effects"))
             (guardb (strict_neq_str (index0 (get result "side_effects"))
                        "Information not available")
                [SideEffectsSection
                   (match get result "side_effects" with
                    | VArr items => items
                    | _ => []
                    end)]))
     ++ guard (get result "warnings")
          [WarningsSection (get result "warnings")]
     ++ guard (get result "disclaimer")
          [DisclaimerBox (get result "disclaimer")]).

(** The fields of a payload that a card shows only when they are there. *)
Definition optional_fields : list string :=
  ["generic_name"; "manufacturer"; "description"; "uses"; "side_effects";
   "warnings"; "disclaimer"].

End ResultCard.

(** ** utils/api.js (src/unnamed/part_004)

    The three components call [queryMedicine] and [uploadImage], which
    return [response.data] of an axios call.  A rejected call throws an
    error object, of which the handlers read [message] and [response]. *)

Module Api.
Import Js.

Record failure := {
  err_message : value;
  err_response : value
}.

(** [err.response?.data?.message] and [err.response?.data?.suggestion]. *)
Definition backend_message (e : failure) : value :=
  optget (optget (err_response e) "data") "message".

Definition backend_suggestion (e : failure) : value :=
  optget (optget (err_response e) "data") "suggestion".

(** [err.response?.data?.message || err.response?.data?.suggestion
     || err.message || fallback], lines 32 of ImageUploader.jsx and 94 of
    CameraCapture.jsx. *)
Definition errorMessage (fallback : string) (e : failure) : value :=
  js_or (js_or (js_or (backend_message e) (backend_suggestion e)) (err_message e))
     (VStr fallback).

(** A fallback order in the words of the specification: the first
    candidate that is present, else the fixed text.  A field is present
    when it holds a truthy value. *)
Fixpoint spec_fallback (candidates : list value) (fixed : string) : value :=
  match candidates with
  | [] => VStr fixed
  | c :: rest => if truthy c then c else spec_fallback rest fixed
  end.

End Api.

(** ** ChatBox.jsx (src/unnamed/part_002) *)

Module ChatBox.
Import Js MessageBubble Api.

Record state := {
  messages : list message;
  input : string;
  loading : bool
}.

(** [onFirstMessage] tells whether the parent passed the callback. *)
Record props := {
  onFirstMessage : bool;
  resetTrigger : Z
}.

Definition initial : state :=
  {| messages := []; input := ""; loading := false |}.

(** White space and line terminators of [String.prototype.trim] among
    the code units below 256. *)
Definition is_white_space (c : ascii) : bool :=
  let n := N_of_ascii c in
  ((9 <=? n) && (n <=? 13) || (n =? 32) || (n =? 160))%N.

Fixpoint trimStart (s : string) : string :=
  match s with
  | EmptyString => EmptyString
  | String c rest => if is_white_space c then trimStart rest else s
  end.

Fixpoint trimEnd (s : string) : string :=
  match s with
  | EmptyString => EmptyString
  | String c rest =>
      match trimEnd rest with
      | EmptyString => if is_white_space c then EmptyString else String c EmptyString
      | kept => String c kept
      end
  end.

Definition trim (s : string) : string := trimEnd (trimStart s).

Inductive effect :=
| CallOnFirstMessage
| PostQuery (query : string).

Definition no_explanation : string := "No explanation available".

Definition not_found : string :=
  "Sorry, I could not find information about that medicine. Please check the spelling or try another name.".

(** Lines 27-44: the handler up to the [await]. *)
Definition handleSubmit (p : props) (now : Z) (s : state) : state * list effect :=
  if negb (truthy (VStr (trim (input s)))) || loading s then (s, [])
  else
    let userMessage :=
      {| type := User; content := VStr (input s); data := VUndef;
         error := false; timestamp := now |} in
    ({| messages := messages s ++ [userMessage]; input := ""; loading := true |},
     (if (Nat.eqb (List.length (messages s)) 0) && onFirstMessage p
      then [CallOnFirstMessage] else [])
     ++ [PostQuery (input s)]).

(** Lines 57-67: the request failed, or building the reply threw. *)
Definition on_rejected (e : failure) (now : Z) (s : state) : state :=
  let errorMessage :=
    {| type := Ai;
       content := js_or (js_or (backend_message e) (backend_suggestion e))
                     (VStr not_found);
       data := VUndef; error := true; timestamp := now |} in
  {| messages := messages s ++ [errorMessage]; input := input s;
     loading := false |}.

(** The [TypeError] of reading a property of [null] or [undefined]; its
    text depends on the engine and is not read. *)
Definition type_error : failure :=
  {| err_message := VStr "TypeError"; err_response := VUndef |}.

(** Lines 47-56 and 65-67: the request returned [response]. *)
Definition on_fulfilled (response : value) (now : Z) (s : state) : state :=
  if nullish response then on_rejected type_error now s
  else
    let aiMessage :=
      {| type := Ai;
         content := js_or (js_or (js_or (get response "ai_explanation")
                               (get response "description"))
                           (get response "explanation"))
                       (VStr no_explanation);
         data := response; error := false; timestamp := now |} in
    {| messages := messages s ++ [aiMessage]; input := input s;
       loading := false |}.

(** Line 95: [onChange] of the text field. *)
Definition setInput (text : string) (s : state) : state :=
  {| messages := messages s; input := text; loading := loading s |}.

(** Lines 20-25: the effect on [resetTrigger], run when the component
    mounts and when the trigger changes. *)
Definition reset_effect (p : props) (s : state) : state :=
  if truthy (VNum (resetTrigger p))
  then {| messages := []; input := ""; loading := loading s |}
  else s.

Definition mount (p : props) : state := reset_effect p initial.

(** One chat session: the component and the requests it has in flight.
    A settling event names the request it settles, so the model itself
    lets requests complete in any order. *)
Record session := {
  ui : state;
  inflight : list string
}.

Inductive event :=
| Typing (text : string)
| Submit (now : Z)
| Fulfil (i : nat) (response : value) (now : Z)
| Reject (i : nat) (e : failure) (now : Z).

Definition queries (effs : list effect) : list string :=
  flat_map (fun e => match e with PostQuery q => [q] | _ => [] end) effs.

Definition step (p : props) (w : session) (ev : event) : session :=
  match ev with
  | Typing text => {| ui := setInput text (ui w); inflight := inflight w |}
  | Submit now =>
      let r := handleSubmit p now (ui w) in
      {| ui := fst r; inflight := inflight w ++ queries (snd r) |}
  | Fulfil i response now =>
      match inflight w !! i with
      | Some _ => {| ui := on_fulfilled response now (ui w);
                     inflight := delete i (inflight w) |}
      | None => w
      end
  | Reject i e now =>
      match inflight w !! i with
      | Some _ => {| ui := on_rejected e now (ui w);
                     inflight := delete i (inflight w) |}
      | None => w
      end
  end.

Definition run (p : props) (w : session) (trace : list event) : session :=
  fold_left (step p) trace w.

Definition start : session := {| ui := initial; inflight := [] |}.

(** The queries posted along a trace, in the order they were posted. *)
Fixpoint outbound (p : props) (w : session) (trace : list event) : list string :=
  match trace with
  | [] => []
  | ev :: rest =>
      match ev with
      | Submit now => queries (snd (handleSubmit p now (ui w)))
      | _ => []
      end ++ outbound p (step p w ev) rest
  end.

(** The texts of the user messages of a log, in log order. *)
Definition user_texts (log : list message) : list value :=
  List.map content
    (List.filter (fun m => match type m with User => true | Ai => false end) log).

(** A log of complete turns: each a user message followed by its reply. *)
Inductive complete_turns : list message -> Prop :=
| turns_nil : complete_turns []
| turns_snoc log u r :
    complete_turns log -> type u = User -> type r = Ai ->
    complete_turns (log ++ [u; r]).

(** A log in submission order: complete turns, followed by the user
    message of the turn in flight exactly when one is. *)
Definition chronological (w : session) : Prop :=
  (loading (ui w) = false /\ inflight w = [] /\ complete_turns (messages (ui w)))
  \/ (exists log u q,
        loading (ui w) = true /\ inflight w = [q]
        /\ messages (ui w) = log ++ [u]
        /\ complete_turns log /\ type u = User /\ content u = VStr q).

(** Only white space, the way the specification words the rejected input. *)
Fixpoint whitespace_only (s : string) : bool :=
  match s with
  | EmptyString => true
  | String c rest => is_white_space c && whitespace_only rest
  end.

(** The texts of the submissions a session accepts, in the words of the
    specification: a submission is accepted when the text in the field is
    not empty or white space and no request is in flight, and a request is
    in flight from an accepted submission until it settles.  [typed] is
    the text in the field and [busy] tells whether a request is in flight;
    with one request at most, the request that settles is the first. *)
Fixpoint accepted (typed : string) (busy : bool) (trace : list event) : list string :=
  match trace with
  | [] => []
  | Typing text :: rest => accepted text busy rest
  | Submit _ :: rest =>
      if busy || whitespace_only typed then accepted typed busy rest
      else typed :: accepted EmptyString true rest
  | Fulfil i _ _ :: rest | Reject i _ _ :: rest =>
      if busy && Nat.eqb i 0 then accepted typed false rest
      else accepted typed busy rest
  end.

Section Page.
Variable coerced_gt0 : value -> bool.

(** Lines 75-77: every message of the log is drawn by MessageBubble; the
    render of the ChatBox goes through when each of them does. *)
Definition renders (s : state) : bool :=
  forallb (fun m => Dom.tree_renders (MessageBubble.MessageBubble coerced_gt0 m))
    (messages s).

(** The session on the page.  App has no error boundary: a render that
    throws unmounts the page, after which there is no session ([None])
    and no event has any effect. *)
Definition page_step (p : props) (w : option session) (ev : event) : option session :=
  match w with
  | None => None
  | Some w0 => if renders (ui (step p w0 ev)) then Some (step p w0 ev) else None
  end.

Definition page_run (p : props) (w : option session) (trace : list event)
    : option session :=
  fold_left (page_step p) trace w.
End Page.

End ChatBox.

(** ** ImageUploader.jsx *)

Module ImageUploader.
Import Js Dom Api.

(** A [File] the user picked, known by its name. *)
Record file := { file_name : string }.

Record state := {
  selectedFile : option file;
  preview : value;
  result : value;
  loading : bool;
  error : value
}.

Definition initial : state :=
  {| selectedFile := None; preview := VNull; result := VNull;
     loading := false; error := VNull |}.

Definition upload_failed : string := "Failed to process image. Please try again.".

(** Lines 11-19.  [chosen] is [e.target.files[0]], [objectURL] what
    [URL.createObjectURL] returns for it. *)
Definition handleFileSelect (chosen : option file) (objectURL : string)
    (s : state) : state :=
  match chosen with
  | Some f =>
      {| selectedFile := Some f; preview := VStr objectURL; result := VNull;
         loading := loading s; error := VNull |}
  | None => s
  end.

(** Lines 21-28: up to the [await]; the file handed to [uploadImage]. *)
Definition handleUpload (s : state) : state * option file :=
  match selectedFile s with
  | None => (s, None)
  | Some f =>
      ({| selectedFile := selectedFile s; preview := preview s;
          result := result s; loading := true; error := VNull |}, Some f)
  end.

(** Lines 29 and 34-36. *)
Definition upload_fulfilled (response : value) (s : state) : state :=
  {| selectedFile := selectedFile s; preview := preview s;
     result := response; loading := false; error := error s |}.

(** Lines 30-36. *)
Definition upload_rejected (e : failure) (s : state) : state :=
  {| selectedFile := selectedFile s; preview := preview s;
     result := result s; loading := false;
     error := errorMessage upload_failed e |}.

(** Lines 39-151. *)
Definition view (s : state) : list node :=
  [Heading "Upload Medicine Image"; FileInput]
  ++ guard (preview s)
       [Image (preview s);
        Button (if loading s then "Processing..." else "Analyze Image")
               (loading s)]
  ++ guard (error s) [ErrorBox (error s)]
  ++ ResultCard.card "Image Analysis Result" (result s).

(** The view with the uploads it has in flight. *)
Record world := {
  ui : state;
  uploads : list file
}.

Inductive event :=
| SelectFile (chosen : option file) (objectURL : string)
| ClickAnalyze
| Fulfil (i : nat) (response : value)
| Reject (i : nat) (e : failure).

Definition step (w : world) (ev : event) : world :=
  match ev with
  | SelectFile chosen objectURL =>
      {| ui := handleFileSelect chosen objectURL (ui w); uploads := uploads w |}
  | ClickAnalyze =>
      if clickable "Analyze Image" (view (ui w)) then
        let r := handleUpload (ui w) in
        {| ui := fst r;
           uploads := uploads w ++ match snd r with Some f => [f] | None => [] end |}
      else w
  | Fulfil i response =>
      match uploads w !! i with
      | Some _ => {| ui := upload_fulfilled response (ui w);
                     uploads := delete i (uploads w) |}
      | None => w
      end
  | Reject i e =>
      match uploads w !! i with
      | Some _ => {| ui := upload_rejected e (ui w);
                     uploads := delete i (uploads w) |}
      | None => w
      end
  end.

Definition run (w : world) (trace : list event) : world :=
  fold_left step trace w.

Definition start : world := {| ui := initial; uploads := [] |}.

Definition is_click_analyze (ev : event) : bool :=
  match ev with ClickAnalyze => true | _ => false end.

(** The view shows neither a result nor an error. *)
Definition shows_no_output (s : state) : Prop :=
  result s = VNull /\ error s = VNull.

End ImageUploader.

(** ** CameraCapture.jsx (src/unnamed/part_003) *)

Module CameraCapture.
Import Js Dom Api.

(** A [MediaStreamTrack] and what [track.stop()] does to it. *)
Record track := { kind : string; live : bool }.

Definition stop (t : track) : track := {| kind := kind t; live := false |}.

(** [streamRef.current] holds the stream by reference: the tracks stopped
    through it are the tracks of the stream it holds. *)
Record state := {
  streaming : bool;
  captured : value;
  result : value;
  loading : bool;
  error : value;
  debugInfo : string;
  streamRef : option (list track)
}.

Definition initial : state :=
  {| streaming := false; captured := VNull; result := VNull; loading := false;
     error := VNull; debugInfo := ""; streamRef := None |}.

Definition analysis_failed : string := "Failed to analyze image. Please try again.".

(** Lines 15-30: up to the [await]s on the timer and on [getUserMedia]. *)
Definition startCamera (s : state) : state :=
  {| streaming := true; captured := captured s; result := result s;
     loading := loading s; error := VNull;
     debugInfo := "Requesting camera access..."; streamRef := streamRef s |}.

(** Lines 32-48: [getUserMedia] returned [stream].  The video element is
    mounted, and [videoRef.current] set, exactly when [streaming] holds. *)
Definition camera_granted (stream : list track) (s : state) : state :=
  if streaming s then
    {| streaming := true; captured := captured s; result := result s;
       loading := loading s; error := error s;
       debugInfo := "Video streaming active!"; streamRef := Some stream |}
  else
    {| streaming := false; captured := captured s; result := result s;
       loading := loading s; error := error s;
       debugInfo := "ERROR: Video element not found!"; streamRef := Some stream |}.

(** Lines 49-54: the request was refused, or the browser has no camera
    interface; [msg] is [err.message]. *)
Definition camera_failed (msg : string) (s : state) : state :=
  {| streaming := false; captured := captured s; result := result s;
     loading := loading s; error := VStr ("Camera error: " +:+ msg);
     debugInfo := "Error: " +:+ msg; streamRef := streamRef s |}.

(** Lines 57-62. *)
Definition stopCamera (s : state) : state :=
  match streamRef s with
  | Some stream =>
      {| streaming := false; captured := captured s; result := result s;
         loading := loading s; error := error s; debugInfo := debugInfo s;
         streamRef := Some (List.map stop stream) |}
  | None => s
  end.

(** Lines 64-76; [imageData] is what [canvas.toDataURL] returns for the
    frame drawn from the video element. *)
Definition captureImage (imageData : string) (s : state) : state :=
  stopCamera
    {| streaming := streaming s; captured := VStr imageData; result := result s;
       loading := loading s; error := error s; debugInfo := debugInfo s;
       streamRef := streamRef s |}.

(** Lines 78-90: up to the [await]s; the frame sent to [uploadImage]. *)
Definition analyzeCapture (s : state) : state * option value :=
  if negb (truthy (captured s)) then (s, None)
  else
    ({| streaming := streaming s; captured := captured s; result := result s;
        loading := true; error := VNull; debugInfo := debugInfo s;
        streamRef := streamRef s |}, Some (captured s)).

(** Lines 91 and 96-98. *)
Definition analysis_fulfilled (response : value) (s : state) : state :=
  {| streaming := streaming s; captured := captured s; result := response;
     loading := false; error := error s; debugInfo := debugInfo s;
     streamRef := streamRef s |}.

(** Lines 92-98. *)
Definition analysis_rejected (e : failure) (s : state) : state :=
  {| streaming := streaming s; captured := captured s; result := result s;
     loading := false; error := errorMessage analysis_failed e;
     debugInfo := debugInfo s; streamRef := streamRef s |}.

(** Lines 101-106. *)
Definition retake (s : state) : state :=
  startCamera
    {| streaming := streaming s; captured := VNull; result := VNull;
       loading := loading s; error := VNull; debugInfo := debugInfo s;
       streamRef := streamRef s |}.

(** Lines 108-257. *)
Definition view (s : state) : list node :=
  [Heading "Live Camera Scan"]
  ++ guardb (negb (streaming s) && negb (truthy (captured s)))
       [Button "Start Camera" false]
  ++ guardb (streaming s)
       [Video; Button "Capture Photo" false; Button "Stop" false]
  ++ guard (captured s)
       [Image (captured s);
        Button (if loading s then "Analyzing..." else "Analyze") (loading s);
        Button "Retake" false]
  ++ guard (VStr (debugInfo s)) [DebugBox (debugInfo s)]
  ++ guard (error s) [ErrorBox (error s)]
  ++ ResultCard.card "Camera Scan Result" (result s).

(** The states of the camera path, read off the three blocks of the view:
    the start button alone is Idle, the live video is Streaming once the
    stream was granted, the still frame is Captured. *)
Definition idle (s : state) : Prop :=
  streaming s = false /\ truthy (captured s) = false.

Definition streaming_granted (s : state) : Prop :=
  streaming s = true /\ exists stream, streamRef s = Some stream.


(** Every track of the stream the component holds is stopped. *)
Definition released (s : state) : Prop :=
  forall stream, streamRef s = Some stream ->
    Forall (fun t => live t = false) stream.

(** The component with the camera requests and analyses in flight. *)
Record world := {
  ui : state;
  camera_requests : nat;
  analyses : nat
}.

Inductive event :=
| ClickStart
| ClickStop
| ClickCapture (imageData : string)
| ClickAnalyze
| ClickRetake
| Granted (stream : list track)
| Failed (msg : string)
| AnalysisFulfil (response : value)
| AnalysisReject (e : failure).

Definition step (w : world) (ev : event) : world :=
  let v := view (ui w) in
  match ev with
  | ClickStart =>
      if clickable "Start Camera" v
      then {| ui := startCamera (ui w);
              camera_requests := S (camera_requests w); analyses := analyses w |}
      else w
  | ClickStop =>
      if clickable "Stop" v
      then {| ui := stopCamera (ui w);
              camera_requests := camera_requests w; analyses := analyses w |}
      else w
  | ClickCapture imageData =>
      if clickable "Capture Photo" v
      then {| ui := captureImage imageData (ui w);
              camera_requests := camera_requests w; analyses := analyses w |}
      else w
  | ClickAnalyze =>
      if clickable "Analyze" v
      then {| ui := fst (analyzeCapture (ui w));
              camera_requests := camera_requests w;
              analyses := match snd (analyzeCapture (ui w)) with
                          | Some _ => S (analyses w)
                          | None => analyses w
                          end |}
      else w
  | ClickRetake =>
      if clickable "Retake" v
      then {| ui := retake (ui w);
              camera_requests := S (camera_requests w); analyses := analyses w |}
      else w
  | Granted stream =>
      match camera_requests w with
      | S n => {| ui := camera_granted stream (ui w);
                  camera_requests := n; analyses := analyses w |}
      | O => w
      end
  | Failed msg =>
      match camera_requests w with
      | S n => {| ui := camera_failed msg (ui w);
                  camera_requests := n; analyses := analyses w |}
      | O => w
      end
  | AnalysisFulfil response =>
      match analyses w with
      | S n => {| ui := analysis_fulfilled response (ui w);
                  camera_requests := camera_requests w; analyses := n |}
      | O => w
      end
  | AnalysisReject e =>
      match analyses w with
      | S n => {| ui := analysis_rejected e (ui w);
                  camera_requests := camera_requests w; analyses := n |}
      | O => w
      end
  end.

Definition run (w : world) (trace : list event) : world :=
  fold_left step trace w.

Definition start : world :=
  {| ui := initial; camera_requests := 0; analyses := 0 |}.

Definition is_click_analyze (ev : event) : bool :=
  match ev with ClickAnalyze => true | _ => false end.

Definition shows_no_output (s : state) : Prop :=
  result s = VNull /\ error s = VNull.

(** The view shows no result, and no error but one the camera raised. *)
Definition shows_no_analysis_output (s : state) : Prop :=
  result s = VNull
  /\ (error s = VNull \/ exists msg, error s = VStr ("Camera error: " +:+ msg)).







Definition is_granted (ev : event) : bool :=
  match ev with Granted _ => true | _ => false end.

End CameraCapture.

(** ** AutoComplete.jsx *)

Module AutoComplete.

(** [toLowerCase] on the code units below 256: the letters A-Z and the
    accented capitals of Latin-1 move down by 32. *)
Definition lower_unit (c : ascii) : ascii :=
  let n := N_of_ascii c in
  if ((65 <=? n) && (n <=? 90)
      || (192 <=? n) && (n <=? 222) && negb (n =? 215))%N
  then ascii_of_N (n + 32) else c.

Fixpoint toLowerCase (s : string) : string :=
  match s with
  | EmptyString => EmptyString
  | String c rest => String (lower_unit c) (toLowerCase rest)
  end.

Fixpoint startsWith (s t : string) : bool :=
  match t with
  | EmptyString => true
  | String b t' =>
      match s with
      | EmptyString => false
      | String a s' => Ascii.eqb a b && startsWith s' t'
      end
  end.

(** [s.includes(t)]. *)
Fixpoint includes (s t : string) : bool :=
  startsWith s t
  || match s with
     | EmptyString => false
     | String _ s' => includes s' t
     end.

Record state := {
  suggestions : list string;
  allMedicines : list string;
  showSuggestions : bool
}.

(** Lines 22-25: the list the effect computes for a non-empty value. *)
Definition filtered (value : string) (directory : list string) : list string :=
  take 5
    (List.filter (fun med => includes (toLowerCase med) (toLowerCase value))
       directory).

(** Lines 21-32: the effect on [value] and [allMedicines]. *)
Definition update (value : string) (s : state) : state :=
  if (0 <? String.length value)%nat then
    {| suggestions := filtered value (allMedicines s);
       allMedicines := allMedicines s;
       showSuggestions := (0 <? List.length (filtered value (allMedicines s)))%nat |}
  else
    {| suggestions := []; allMedicines := allMedicines s;
       showSuggestions := false |}.

(** The suggestion list for a query and a cached directory. *)
Definition suggest (value : string) (directory : list string) : list string :=
  suggestions
    (update value
       {| suggestions := []; allMedicines := directory; showSuggestions := false |}).

(** [x] occurs in [m] up to the case of letters: some stretch of [m]
    differs from [x] only in case. *)
Definition contains_ignoring_case (m x : string) : Prop :=
  exists before stretch after,
    m = before +:+ stretch +:+ after
    /\ toLowerCase stretch = toLowerCase x.

(** [picked] are the first [limit] names of [directory] that satisfy [P],
    in the order of the directory, or all of them when there are fewer. *)
Inductive first_matching (P : string -> Prop)
    : nat -> list string -> list string -> Prop :=
| first_none_left directory : first_matching P 0 directory []
| first_end limit : first_matching P limit [] []
| first_take limit name directory picked :
    P name -> first_matching P limit directory picked ->
    first_matching P (S limit) (name :: directory) (name :: picked)
| first_skip limit name directory picked :
    ~ P name -> first_matching P (S limit) directory picked ->
    first_matching P (S limit) (name :: directory) picked.

End AutoComplete.

(** ** VoiceInput.jsx *)

Module VoiceInput.
Import Dom.

Record state := {
  listening : bool;
  supported : bool
}.

Definition initial : state := {| listening := false; supported := true |}.

(** Lines 7-39.  [available] tells whether [window] has a speech
    recognition constructor; the result says whether a recognition was
    started. *)
Definition startListening (available : bool) (s : state) : state * bool :=
  if negb available
  then ({| listening := listening s; supported := false |}, false)
  else (s, true).

(** Lines 20-36: the callbacks of a started recognition. *)
Definition onstart (s : state) : state :=
  {| listening := true; supported := supported s |}.

(** [onresult] also hands the transcript to [onTranscript]. *)
Definition onresult (transcript : string) (s : state) : state * string :=
  ({| listening := false; supported := supported s |}, transcript).

Definition onerror (s : state) : state :=
  {| listening := false; supported := supported s |}.

Definition onend (s : state) : state :=
  {| listening := false; supported := supported s |}.

(** Lines 41-58: [None] is the [null] the component returns; the label of
    the idle button, a microphone pictogram, is written [mic]. *)
Definition view (s : state) : option (list node) :=
  if negb (supported s) then None
  else Some [Button (if listening s then "Listening..." else "mic")
                    (listening s)].

(** The button is rendered and not disabled. *)
Definition can_press (s : state) : bool :=
  match view s with
  | Some [Button _ disabled] => negb disabled
  | _ => false
  end.

(** What happens to the component: a press on the button, in a browser
    that has speech recognition or not, and the callbacks of a started
    recognition. *)
Inductive event :=
| Press (available : bool)
| OnStart
| OnResult (transcript : string)
| OnError
| OnEnd.

Definition step (s : state) (ev : event) : state :=
  match ev with
  | Press available => if can_press s then fst (startListening available s) else s
  | OnStart => onstart s
  | OnResult transcript => fst (onresult transcript s)
  | OnError => onerror s
  | OnEnd => onend s
  end.

Definition run (s : state) (trace : list event) : state :=
  fold_left step trace s.

End VoiceInput.

(** ** Sidebar.jsx and App.jsx

    The source of Sidebar follows that of VoiceInput in the file
    VoiceInput.jsx; its line numbers below are those of that file. *)

Module App.
Import Js.

Inductive tab := Chat | ImageTab | CameraTab.

Record state := {
  activeTab : tab;
  showHero : bool;
  chatResetTrigger : Z
}.

Definition initial : state :=
  {| activeTab := Chat; showHero := true; chatResetTrigger := 0 |}.

(** Lines 12-16. *)
Definition handleNewChat (a : state) : state :=
  {| activeTab := Chat; showHero := true;
     chatResetTrigger := chatResetTrigger a + 1 |}.

(** Lines 18-20. *)
Definition handleStartChat (a : state) : state :=
  {| activeTab := activeTab a; showHero := false;
     chatResetTrigger := chatResetTrigger a |}.

(** Lines 87 and 128-130: the hero is shown, the ChatBox is mounted. *)
Definition hero_shown (a : state) : bool :=
  showHero a && match activeTab a with Chat => true | _ => false end.

Definition chat_mounted (a : state) : bool :=
  (negb (showHero a) || match activeTab a with Chat => false | _ => true end)
  && match activeTab a with Chat => true | _ => false end.

(** The props line 130 passes to ChatBox. *)
Definition chat_props (a : state) : ChatBox.props :=
  {| ChatBox.onFirstMessage := true;
     ChatBox.resetTrigger := chatResetTrigger a |}.

(** What React makes of the ChatBox after an update of App: its state is
    dropped when it is unmounted, a fresh one is made when it is mounted,
    and the reset effect runs when the trigger it is given changed. *)
Definition reconcile (before after : state) (chat : option ChatBox.state)
    : option ChatBox.state :=
  if chat_mounted after then
    match chat with
    | Some c =>
        if Z.eqb (chatResetTrigger before) (chatResetTrigger after)
        then Some c
        else Some (ChatBox.reset_effect (chat_props after) c)
    | None => Some (ChatBox.mount (chat_props after))
    end
  else None.

(** Lines 34, 44 and 54: the three tab buttons. *)
Definition setActiveTab (t : tab) (a : state) : state :=
  {| activeTab := t; showHero := showHero a;
     chatResetTrigger := chatResetTrigger a |}.

(** Lines 74-84: the back button, rendered with the ChatBox. *)
Definition backToHome (a : state) : state :=
  {| activeTab := activeTab a; showHero := true;
     chatResetTrigger := chatResetTrigger a |}.

(** Lines 128-132: the other two panels. *)
Definition image_mounted (a : state) : bool :=
  (negb (showHero a) || match activeTab a with Chat => false | _ => true end)
  && match activeTab a with ImageTab => true | _ => false end.

Definition camera_mounted (a : state) : bool :=
  (negb (showHero a) || match activeTab a with Chat => false | _ => true end)
  && match activeTab a with CameraTab => true | _ => false end.

(** An update of App followed by the render it causes. *)
Definition update (f : state -> state) (a : state) (chat : option ChatBox.state)
    : state * option ChatBox.state :=
  (f a, reconcile a (f a) chat).

End App.

Module Sidebar.
Import Js.

(** The [id] of a stored chat, a number or a string, or [undefined] for
    a prop the parent does not pass. *)
Inductive chat_id :=
| IdUndefined
| IdNum (n : Z)
| IdStr (s : string).

#[export] Instance chat_id_eq_dec : EqDecision chat_id.
Proof. solve_decision. Defined.

Record chat := {
  id : chat_id;
  title : string;
  timestamp : string
}.

Record props := { currentChatId : chat_id }.

(** The key of line 69 and 77. *)
Definition history_key : string := "ai_lth_chat_history".

(** [localStorage], a stored document being the list it serialises. *)
Abbreviation storage := (gmap string (list chat)).

(** The whole page: the Sidebar's history, the store, App and the
    ChatBox when it is mounted. *)
Record page := {
  chatHistory : list chat;
  localStorage : storage;
  app : App.state;
  chatbox : option ChatBox.state
}.

(** Lines 76-78: the effect that runs after [chatHistory] changed. *)
Definition save_effect (history : list chat) (store : storage) : storage :=
  <[history_key := history]> store.

(** Line 82: [prev.filter(c => c.id !== chatId)]. *)
Definition without (chatId : chat_id) (history : list chat) : list chat :=
  List.filter (fun c => negb (bool_decide (id c = chatId))) history.

(** Lines 80-88, with [onNewChat] the [handleNewChat] of App, followed by
    the render and the effects the update causes. *)
Definition handleDeleteChat (p : props) (chatId : chat_id) (w : page) : page :=
  let history := without chatId (chatHistory w) in
  let app' := if bool_decide (currentChatId p = chatId)
              then App.handleNewChat (app w) else app w in
  {| chatHistory := history;
     localStorage := save_effect history (localStorage w);
     app := app';
     chatbox := App.reconcile (app w) app' (chatbox w) |}.

(** Line 25 of App.jsx: Sidebar is given [onNewChat] only. *)
Definition props_from_app : props := {| currentChatId := IdUndefined |}.

(** Lines 67-78: what mounting Sidebar does.  The first render has an
    empty [chatHistory]; the load effect reads the store and queues the
    saved history, the save effect then writes the empty one; the render
    the queued update causes runs the save effect again. *)
Definition mount (store : storage) : list chat * storage :=
  let first_commit := save_effect [] store in
  match store !! history_key with
  | Some saved => (saved, save_effect saved first_commit)
  | None => ([], first_commit)
  end.

(** The ChatBox is held exactly when App mounts it. *)
Definition consistent (w : page) : Prop :=
  App.chat_mounted (app w) = bool_decide (is_Some (chatbox w)).

End Sidebar.

(** * Properties *)

(** ** Rendering of side effects and uses *)

Section Rendering.
Import Js Dom.

Variable coerced_gt0 : value -> bool.

Lemma side_effects_sections_app (a b : list node) :
  side_effects_sections (a ++ b)
  = side_effects_sections a ++ side_effects_sections b.
Proof. apply flat_map_app. Qed.

Lemma uses_sections_app (a b : list node) :
  uses_sections (a ++ b) = uses_sections a ++ uses_sections b.
Proof. apply flat_map_app. Qed.

Lemma side_effects_sections_guard (c : value) (rest : list node) :
  side_effects_sections (guard c rest)
  = if truthy c then side_effects_sections rest else [].
Proof. unfold guard. destruct (truthy c); [reflexivity|]. by destruct c. Qed.

Lemma uses_sections_guard (c : value) (rest : list node) :
  uses_sections (guard c rest) = if truthy c then uses_sections rest else [].
Proof. unfold guard. destruct (truthy c); [reflexivity|]. by destruct c. Qed.

Lemma side_effects_sections_guardb (c : bool) (rest : list node) :
  side_effects_sections (guardb c rest)
  = if c then side_effects_sections rest else [].
Proof. by destruct c. Qed.

Lemma uses_sections_guardb (c : bool) (rest : list node) :
  uses_sections (guardb c rest) = if c then uses_sections rest else [].
Proof. by destruct c. Qed.

Lemma if_same {A} (c : bool) (x : A) : (if c then x else x) = x.
Proof. by destruct c. Qed.

(** The side-effects sections MessageBubble shows for a payload. *)
Lemma structured_side_effects (d : value) :
  side_effects_sections (MessageBubble.structured coerced_gt0 d)
  = if truthy (get d "side_effects")
       && gt0 coerced_gt0 (length (get d "side_effects"))
       && strict_neq_str (index0 (get d "side_effects")) sentinel
    then [match get d "side_effects" with
          | VArr items => items
          | other => [other]
          end]
    else [].
Proof.
  unfold MessageBubble.structured.
  rewrite !side_effects_sections_app, !side_effects_sections_guard,
    !side_effects_sections_guardb.
  cbn [side_effects_sections flat_map app].
  rewrite !if_same. cbn [app].
  destruct (truthy (get d "side_effects")); [|reflexivity].
  destruct (gt0 _ _); [|reflexivity].
  unfold sentinel.
  destruct (strict_neq_str _ _); reflexivity.
Qed.

(** The side-effects sections the result card of the image and camera
    views shows for a payload. *)
Lemma card_side_effects (heading : string) (r : value) :
  side_effects_sections (ResultCard.card heading r)
  = if truthy r && truthy (get r "side_effects")
       && isArray (get r "side_effects")
       && strict_neq_str (index0 (get r "side_effects")) sentinel
    then [match get r "side_effects" with VArr items => items | _ => [] end]
    else [].
Proof.
  unfold ResultCard.card.
  rewrite side_effects_sections_guard.
  destruct (truthy r); [|reflexivity].
  rewrite !side_effects_sections_app, !side_effects_sections_guard,
    !side_effects_sections_guardb.
  cbn [side_effects_sections flat_map app].
  rewrite !if_same. cbn [app andb].
  destruct (truthy (get r "side_effects")); [|reflexivity].
  destruct (isArray _); [|reflexivity].
  unfold sentinel.
  destruct (strict_neq_str _ _); reflexivity.
Qed.

Lemma structured_uses (d : value) :
  uses_sections (MessageBubble.structured coerced_gt0 d)
  = if truthy (get d "uses") && strict_neq_str (get d "uses") "N/A"
       && strict_neq_str (get d "uses") sentinel
    then [get d "uses"] else [].
Proof.
  unfold MessageBubble.structured.
  rewrite !uses_sections_app, !uses_sections_guard, !uses_sections_guardb.
  cbn [uses_sections flat_map app].
  rewrite !if_same. cbn [app].
  destruct (truthy (get d "uses")); [|reflexivity].
  destruct (strict_neq_str _ "N/A"); [|reflexivity].
  unfold sentinel.
  destruct (strict_neq_str _ _); reflexivity.
Qed.

Lemma card_uses (heading : string) (r : value) :
  uses_sections (ResultCard.card heading r)
  = if truthy r && truthy (get r "uses") && strict_neq_str (get r "uses") "N/A"
       && strict_neq_str (get r "uses") sentinel
    then [get r "uses"] else [].
Proof.
  unfold ResultCard.card.
  rewrite uses_sections_guard.
  destruct (truthy r); [|reflexivity].
  rewrite !uses_sections_app, !uses_sections_guard, !uses_sections_guardb.
  cbn [uses_sections flat_map app].
  rewrite !if_same. cbn [app andb].
  destruct (truthy (get r "uses")); [|reflexivity].
  destruct (strict_neq_str _ "N/A"); [|reflexivity].
  unfold sentinel.
  destruct (strict_neq_str _ _); reflexivity.
Qed.

Lemma bubble_uses (m : MessageBubble.message) :
  uses_sections (MessageBubble.MessageBubble coerced_gt0 m)
  = match MessageBubble.type m with
    | MessageBubble.User => []
    | MessageBubble.Ai =>
        if negb (MessageBubble.error m) && truthy (MessageBubble.data m)
        then uses_sections (MessageBubble.structured coerced_gt0 (MessageBubble.data m))
        else []
    end.
Proof.
  unfold MessageBubble.MessageBubble.
  rewrite !uses_sections_app, !uses_sections_guardb, !uses_sections_guard.
  destruct (MessageBubble.type m), (MessageBubble.error m),
    (truthy (MessageBubble.data m)); cbn; by rewrite ?app_nil_r.
Qed.

Lemma bubble_side_effects (m : MessageBubble.message) :
  side_effects_sections (MessageBubble.MessageBubble coerced_gt0 m)
  = match MessageBubble.type m with
    | MessageBubble.User => []
    | MessageBubble.Ai =>
        if negb (MessageBubble.error m) && truthy (MessageBubble.data m)
        then side_effects_sections
               (MessageBubble.structured coerced_gt0 (MessageBubble.data m))
        else []
    end.
Proof.
  unfold MessageBubble.MessageBubble.
  rewrite !side_effects_sections_app, !side_effects_sections_guardb,
    !side_effects_sections_guard.
  destruct (MessageBubble.type m), (MessageBubble.error m),
    (truthy (MessageBubble.data m)); cbn; by rewrite ?app_nil_r.
Qed.

Lemma upload_view_uses (s : ImageUploader.state) :
  uses_sections (ImageUploader.view s)
  = uses_sections (ResultCard.card "Image Analysis Result" (ImageUploader.result s)).
Proof.
  unfold ImageUploader.view.
  rewrite !uses_sections_app, !uses_sections_guard.
  cbn [uses_sections flat_map app]. by rewrite !if_same.
Qed.

Lemma upload_view_side_effects (s : ImageUploader.state) :
  side_effects_sections (ImageUploader.view s)
  = side_effects_sections
      (ResultCard.card "Image Analysis Result" (ImageUploader.result s)).
Proof.
  unfold ImageUploader.view.
  rewrite !side_effects_sections_app, !side_effects_sections_guard.
  cbn [side_effects_sections flat_map app]. by rewrite !if_same.
Qed.

Lemma camera_view_uses (s : CameraCapture.state) :
  uses_sections (CameraCapture.view s)
  = uses_sections (ResultCard.card "Camera Scan Result" (CameraCapture.result s)).
Proof.
  unfold CameraCapture.view.
  rewrite !uses_sections_app, !uses_sections_guard, !uses_sections_guardb.
  cbn [uses_sections flat_map app]. by rewrite !if_same.
Qed.

Lemma camera_view_side_effects (s : CameraCapture.state) :
  side_effects_sections (CameraCapture.view s)
  = side_effects_sections
      (ResultCard.card "Camera Scan Result" (CameraCapture.result s)).
Proof.
  unfold CameraCapture.view.
  rewrite !side_effects_sections_app, !side_effects_sections_guard,
    !side_effects_sections_guardb.
  cbn [side_effects_sections flat_map app]. by rewrite !if_same.
Qed.

(** In the chat view a scalar string that is not empty is listed as one
    item. *)
Lemma chat_scalar_side_effects (d : value) (s : string) :
  get d "side_effects" = VStr s -> s <> EmptyString ->
  side_effects_sections (MessageBubble.structured coerced_gt0 d) = [[VStr s]].
Proof.
  intros Hse Hs. rewrite structured_side_effects, Hse.
  destruct s as [|c rest]; [done|].
  assert (gt0 coerced_gt0 (length (VStr (String c rest))) = true) as ->
    by (cbn [gt0 length String.length]; apply Z.ltb_lt; lia).
  assert (strict_neq_str (index0 (VStr (String c rest))) sentinel = true) as ->
    by (cbn; destruct (Ascii.eqb c "I"); reflexivity).
  reflexivity.
Qed.

(** In the chat view a sequence is listed as it is, unless it is empty or
    starts with the sentinel. *)
Lemma chat_sequence_side_effects (d : value) (items : list value) :
  get d "side_effects" = VArr items ->
  side_effects_sections (MessageBubble.structured coerced_gt0 d)
  = match items with
    | [] => []
    | first :: _ => if strict_neq_str first sentinel then [items] else []
    end.
Proof.
  intros Hse. rewrite structured_side_effects, Hse.
  destruct items as [|first rest]; [reflexivity|].
  cbn [truthy length gt0 index0 andb List.length].
  replace (0 <? Z.of_nat (S (List.length rest))) with true
    by (symmetry; apply Z.ltb_lt; lia).
  reflexivity.
Qed.

(** In the image and camera views a sequence is listed as it is unless it
    starts with the sentinel; an empty one is listed too. *)
Lemma card_sequence_side_effects (heading : string) (r : value) (items : list value) :
  truthy r = true -> get r "side_effects" = VArr items ->
  side_effects_sections (ResultCard.card heading r)
  = if strict_neq_str (index0 (VArr items)) sentinel then [items] else [].
Proof.
  intros Hr Hse. rewrite card_side_effects, Hr, Hse. reflexivity.
Qed.

(** In the image and camera views a scalar is not listed. *)
Lemma card_scalar_side_effects (heading : string) (r : value) (s : string) :
  get r "side_effects" = VStr s ->
  side_effects_sections (ResultCard.card heading r) = [].
Proof.
  intros Hse. rewrite card_side_effects, Hse. cbn.
  by rewrite andb_false_r.
Qed.

End Rendering.

(** The scenario of the specification: the backend answers Panadol with
    [uses: "N/A"] and [side_effects: ["Information not available"]]; the
    chat message shows the name and neither section. *)
Example panadol_scenario (coerced_gt0 : Js.value -> bool) :
  MessageBubble.MessageBubble coerced_gt0
    {| MessageBubble.type := MessageBubble.Ai;
       MessageBubble.content := Js.VStr ChatBox.no_explanation;
       MessageBubble.data :=
         Js.VObj [("medicine_name", Js.VStr "Panadol"); ("uses", Js.VStr "N/A");
                  ("side_effects", Js.VArr [Js.VStr "Information not available"])];
       MessageBubble.error := false; MessageBubble.timestamp := 0 |}
  = [Dom.MedicineName (Js.VStr "Panadol"); Dom.TimeStamp 0].
Proof. reflexivity. Qed.

(** C1.  The side-effects section is to be suppressed in every view when
    the sequence is empty, and a scalar string is to be shown as a
    one-element sequence.  For the payload with [side_effects: []] the
    image and camera views show a side-effects section with no item, where
    the chat view shows none; for the payload with the scalar
    [side_effects: "Nausea"] the chat view lists the one item, where the
    image and camera views show no section.  The chat view in its turn
    lists a scalar that is the sentinel text, its test of the first
    element reading the first code unit of the string. *)
Theorem side_effects_image_camera_differ_from_chat :
  let empty_seq := Js.VObj [("medicine_name", Js.VStr "Panadol");
                            ("side_effects", Js.VArr [])] in
  let scalar := Js.VObj [("medicine_name", Js.VStr "Panadol");
                         ("side_effects", Js.VStr "Nausea")] in
  let scalar_sentinel :=
    Js.VObj [("medicine_name", Js.VStr "Panadol");
             ("side_effects", Js.VStr "Information not available")] in
  let bubble payload :=
    {| MessageBubble.type := MessageBubble.Ai;
       MessageBubble.content := Js.VStr ChatBox.no_explanation;
       MessageBubble.data := payload; MessageBubble.error := false;
       MessageBubble.timestamp := 0 |} in
  Dom.side_effects_sections
    (ImageUploader.view
       (ImageUploader.upload_fulfilled empty_seq ImageUploader.initial)) = [[]]
  /\ Dom.side_effects_sections
       (CameraCapture.view
          (CameraCapture.analysis_fulfilled empty_seq CameraCapture.initial)) = [[]]
  /\ (forall coerced_gt0,
        Dom.side_effects_sections
          (MessageBubble.MessageBubble coerced_gt0 (bubble empty_seq)) = [])
  /\ (forall coerced_gt0,
        Dom.side_effects_sections
          (MessageBubble.MessageBubble coerced_gt0 (bubble scalar))
        = [[Js.VStr "Nausea"]])
  /\ Dom.side_effects_sections
       (ImageUploader.view
          (ImageUploader.upload_fulfilled scalar ImageUploader.initial)) = []
  /\ Dom.side_effects_sections
       (CameraCapture.view
          (CameraCapture.analysis_fulfilled scalar CameraCapture.initial)) = []
  /\ (forall coerced_gt0,
        Dom.side_effects_sections
          (MessageBubble.MessageBubble coerced_gt0 (bubble scalar_sentinel))
        = [[Js.VStr "Information not available"]]).
Proof. cbv zeta. repeat split; intros; reflexivity. Qed.

(** C2.  Whatever else a payload holds, when its [uses] is the text
    ["N/A"] or ["Information not available"] none of the three views (a
    chat message carrying it, the image upload view and the camera view
    showing it as their result) has a uses section. *)
Theorem uses_placeholder_never_rendered (payload : Js.value) :
  Js.get payload "uses" = Js.VStr "N/A"
  \/ Js.get payload "uses" = Js.VStr "Information not available" ->
  (forall coerced_gt0 (m : MessageBubble.message),
      MessageBubble.data m = payload ->
      Dom.uses_sections (MessageBubble.MessageBubble coerced_gt0 m) = [])
  /\ (forall s : ImageUploader.state,
        ImageUploader.result s = payload ->
        Dom.uses_sections (ImageUploader.view s) = [])
  /\ (forall s : CameraCapture.state,
        CameraCapture.result s = payload ->
        Dom.uses_sections (CameraCapture.view s) = []).
Proof.
  intros Huses. repeat split.
  - intros gt0 m <-. rewrite bubble_uses.
    destruct (MessageBubble.type m); [reflexivity|].
    destruct (_ && _); [|reflexivity].
    rewrite structured_uses. destruct Huses as [-> | ->]; reflexivity.
  - intros s <-. rewrite upload_view_uses, card_uses.
    destruct Huses as [-> | ->]; cbn; by rewrite ?andb_false_r.
  - intros s <-. rewrite camera_view_uses, card_uses.
    destruct Huses as [-> | ->]; cbn; by rewrite ?andb_false_r.
Qed.

Lemma uses_placeholder_never_rendered_witness :
  let payload := Js.VObj [("medicine_name", Js.VStr "Panadol");
                          ("uses", Js.VStr "N/A");
                          ("side_effects", Js.VArr [Js.VStr "Information not available"])] in
  Dom.uses_sections
    (ImageUploader.view (ImageUploader.upload_fulfilled payload ImageUploader.initial))
  = [].
Proof.
  cbv zeta.
  apply (uses_placeholder_never_rendered
           (Js.VObj [("medicine_name", Js.VStr "Panadol");
                     ("uses", Js.VStr "N/A");
                     ("side_effects", Js.VArr [Js.VStr "Information not available"])])).
  - left. reflexivity.
  - reflexivity.
Defined.

(** ** Failure messages *)

Section Failures.
Import Js Api.

Lemma js_or_fallback2 (a b : value) (fixed : string) :
  js_or (js_or a b) (VStr fixed) = spec_fallback [a; b] fixed.
Proof. unfold js_or. cbn. destruct (truthy a) eqn:Ha; [by rewrite Ha|reflexivity]. Qed.

Lemma js_or_fallback3 (a b c : value) (fixed : string) :
  js_or (js_or (js_or a b) c) (VStr fixed) = spec_fallback [a; b; c] fixed.
Proof.
  unfold js_or. cbn.
  destruct (truthy a) eqn:Ha; [by rewrite !Ha|].
  destruct (truthy b) eqn:Hb; [by rewrite !Hb|reflexivity].
Qed.

End Failures.

(** The scenario of the specification: the backend answers 404 with
    [{message: "No match found"}]; the chat shows an error message with
    that text. *)
Example not_found_scenario :
  let e := {| Api.err_message := Js.VStr "Request failed with status code 404";
              Api.err_response :=
                Js.VObj [("status", Js.VNum 404);
                         ("data", Js.VObj [("message", Js.VStr "No match found")])] |} in
  ChatBox.messages (ChatBox.on_rejected e 5 ChatBox.initial)
  = [{| MessageBubble.type := MessageBubble.Ai;
        MessageBubble.content := Js.VStr "No match found";
        MessageBubble.data := Js.VUndef; MessageBubble.error := true;
        MessageBubble.timestamp := 5 |}].
Proof. reflexivity. Qed.

(** C3, as stated, fails on the image path: for a request that got no
    response (a transport failure whose error says "Network Error") the
    view shows the error's own text, which is neither a backend field nor
    the fixed fallback. *)
Lemma image_failure_shows_transport_text :
  let e := {| Api.err_message := Js.VStr "Network Error";
              Api.err_response := Js.VUndef |} in
  ImageUploader.error (ImageUploader.upload_rejected e ImageUploader.initial)
  = Js.VStr "Network Error"
  /\ ImageUploader.error (ImageUploader.upload_rejected e ImageUploader.initial)
     <> Api.spec_fallback [Api.backend_message e; Api.backend_suggestion e]
          ImageUploader.upload_failed.
Proof. cbv zeta. split; [reflexivity|]. cbn. discriminate. Qed.

(** C3, amended.  A failed text submission appends an error message whose
    text is the backend's [message] if present, else its [suggestion] if
    present, else the fixed not-found text.  A failed image or camera
    submission shows the backend's [message] if present, else its
    [suggestion] if present, else the error's own [message] if present,
    else the fixed text of that view. *)
Theorem failure_message_fallback_order (e : Api.failure) :
  (forall now s,
      exists m,
        ChatBox.messages (ChatBox.on_rejected e now s) = ChatBox.messages s ++ [m]
        /\ MessageBubble.error m = true
        /\ MessageBubble.content m
           = Api.spec_fallback [Api.backend_message e; Api.backend_suggestion e]
               ChatBox.not_found)
  /\ (forall s,
        ImageUploader.error (ImageUploader.upload_rejected e s)
        = Api.spec_fallback
            [Api.backend_message e; Api.backend_suggestion e; Api.err_message e]
            ImageUploader.upload_failed)
  /\ (forall s,
        CameraCapture.error (CameraCapture.analysis_rejected e s)
        = Api.spec_fallback
            [Api.backend_message e; Api.backend_suggestion e; Api.err_message e]
            CameraCapture.analysis_failed).
Proof.
  repeat split.
  - intros now s. eexists. split; [reflexivity|]. split; [reflexivity|].
    apply js_or_fallback2.
  - intros s. apply js_or_fallback3.
  - intros s. apply js_or_fallback3.
Qed.

(** ** The chat session *)

Section Chat.
Import Js MessageBubble Api ChatBox.

Variable p : props.

Lemma trimStart_whitespace_only (s : string) :
  whitespace_only s = true -> trimStart s = EmptyString.
Proof.
  induction s as [|c rest IH]; [reflexivity|]. cbn.
  intros [Hc Hrest]%andb_prop. rewrite Hc. auto.
Qed.

Lemma trimEnd_empty (s : string) :
  trimEnd s = EmptyString -> whitespace_only s = true.
Proof.
  induction s as [|c rest IH]; [reflexivity|]. cbn.
  destruct (trimEnd rest); [|discriminate].
  destruct (is_white_space c); [|discriminate]. auto.
Qed.

Lemma trimStart_suffix (s : string) :
  exists blanks, s = blanks +:+ trimStart s /\ whitespace_only blanks = true.
Proof.
  induction s as [|c rest [blanks [Heq Hb]]].
  - by exists EmptyString.
  - cbn. destruct (is_white_space c) eqn:Hc.
    + exists (String c blanks). cbn. rewrite Hc, Hb. split; [|reflexivity].
      change (String c rest = String c (blanks +:+ trimStart rest)).
      by rewrite <- Heq.
    + by exists EmptyString.
Qed.

Lemma whitespace_only_app (a b : string) :
  whitespace_only (a +:+ b) = whitespace_only a && whitespace_only b.
Proof.
  induction a as [|c rest IH]; [reflexivity|].
  change (is_white_space c && whitespace_only (rest +:+ b)
          = is_white_space c && whitespace_only rest && whitespace_only b).
  by rewrite IH, andb_assoc.
Qed.

Example trim_keeps_inner_space : trim "  Panadol Extra " = "Panadol Extra".
Proof. reflexivity. Qed.

(** [trim] leaves nothing exactly of the strings made of white space. *)
Lemma trim_empty_iff (s : string) :
  trim s = EmptyString <-> whitespace_only s = true.
Proof.
  unfold trim. split.
  - intros H%trimEnd_empty.
    destruct (trimStart_suffix s) as [blanks [Heq Hb]].
    rewrite Heq, whitespace_only_app, Hb, H. reflexivity.
  - intros H. by rewrite (trimStart_whitespace_only s H).
Qed.

Lemma rejected_iff (s : state) :
  negb (truthy (VStr (trim (input s)))) || loading s = true
  <-> whitespace_only (input s) = true \/ loading s = true.
Proof.
  rewrite orb_true_iff, <- trim_empty_iff. cbn.
  rewrite negb_involutive, String.eqb_eq. reflexivity.
Qed.

(** What an accepted submission does. *)
Lemma handleSubmit_accepted (now : Z) (s : state) :
  whitespace_only (input s) = false -> loading s = false ->
  exists u effs,
    handleSubmit p now s
    = ({| messages := messages s ++ [u]; input := ""; loading := true |}, effs)
    /\ queries effs = [input s]
    /\ type u = User /\ content u = VStr (input s).
Proof.
  intros Hw Hl. unfold handleSubmit.
  destruct (negb _ || loading s) eqn:Hrej.
  - apply rejected_iff in Hrej as [Hrej | Hrej]; congruence.
  - eexists _, _. split; [reflexivity|].
    split; [|split; reflexivity].
    destruct (_ && onFirstMessage p); reflexivity.
Qed.

Lemma handleSubmit_rejected (now : Z) (s : state) :
  whitespace_only (input s) = true \/ loading s = true ->
  handleSubmit p now s = (s, []).
Proof.
  intros H%rejected_iff. unfold handleSubmit. by rewrite H.
Qed.

Lemma user_texts_app (a b : list message) :
  user_texts (a ++ b) = user_texts a ++ user_texts b.
Proof. unfold user_texts. by rewrite List.filter_app, List.map_app. Qed.

Lemma on_rejected_appends (e : failure) (now : Z) (s : state) :
  exists r, on_rejected e now s
            = {| messages := messages s ++ [r]; input := input s; loading := false |}
            /\ type r = Ai.
Proof. eexists. split; reflexivity. Qed.

Lemma on_fulfilled_appends (response : value) (now : Z) (s : state) :
  exists r, on_fulfilled response now s
            = {| messages := messages s ++ [r]; input := input s; loading := false |}
            /\ type r = Ai.
Proof.
  unfold on_fulfilled. destruct (nullish response).
  - apply on_rejected_appends.
  - eexists. split; reflexivity.
Qed.

(** Every event leaves the log as it is or appends one message to it. *)
Ltac log_unchanged :=
  exists []; split; [by rewrite app_nil_r | cbn; lia].

Lemma step_appends (w : session) (ev : event) :
  exists suffix,
    messages (ui (step p w ev)) = messages (ui w) ++ suffix
    /\ (List.length suffix <= 1)%nat.
Proof.
  destruct ev as [text | now | i response now | i e now]; cbn.
  - log_unchanged.
  - unfold handleSubmit. destruct (negb _ || _); cbn.
    + log_unchanged.
    + eexists [_]. split; [reflexivity|]. cbn. lia.
  - destruct (inflight w !! i); cbn.
    + destruct (on_fulfilled_appends response now (ui w)) as [r [-> _]].
      exists [r]. split; [reflexivity|]. cbn. lia.
    + log_unchanged.
  - destruct (inflight w !! i); cbn.
    + eexists [_]. split; [reflexivity|]. cbn. lia.
    + log_unchanged.
Qed.

Lemma run_appends (trace : list event) (w : session) :
  exists suffix, messages (ui (run p w trace)) = messages (ui w) ++ suffix.
Proof.
  revert w. induction trace as [|ev rest IH]; intros w.
  - exists []. cbn. by rewrite app_nil_r.
  - cbn. destruct (IH (step p w ev)) as [more Hmore].
    destruct (step_appends w ev) as [one [Hone _]].
    exists (one ++ more). unfold run in Hmore. by rewrite Hmore, Hone, app_assoc.
Qed.

Lemma settle_chronological (w : session) (i : nat) (q : string) (s' : state) :
  chronological w -> inflight w !! i = Some q ->
  (exists r, s' = {| messages := messages (ui w) ++ [r]; input := input (ui w);
                     loading := false |} /\ type r = Ai) ->
  chronological {| ui := s'; inflight := delete i (inflight w) |}.
Proof.
  intros [[_ [Hnone _]] | [log [u [q' [_ [Hone [Hlog [Hturns [Hu _]]]]]]]]] Hi [r [-> Hr]].
  - rewrite Hnone in Hi. discriminate.
  - left. rewrite Hone in *. destruct i as [|i]; [|discriminate]. cbn.
    split; [reflexivity|]. split; [reflexivity|].
    rewrite Hlog, <- app_assoc. by constructor.
Qed.

(** Every event keeps the log in submission order. *)
Lemma step_chronological (w : session) (ev : event) :
  chronological w -> chronological (step p w ev).
Proof.
  intros Hw. destruct ev as [text | now | i response now | i e now]; cbn.
  - destruct Hw as [[Hl [Hi Ht]] | [log [u [q H]]]]; [left | right]; cbn; eauto.
  - destruct (whitespace_only (input (ui w))) eqn:Hws;
      [rewrite handleSubmit_rejected by auto; cbn; rewrite app_nil_r;
       by destruct w|].
    destruct (loading (ui w)) eqn:Hl;
      [rewrite handleSubmit_rejected by auto; cbn; rewrite app_nil_r;
       by destruct w|].
    destruct (handleSubmit_accepted now (ui w) Hws Hl) as [u [effs [-> [Hq [Hu Hc]]]]].
    destruct Hw as [[_ [Hi Ht]] | [log [u' [q [Hl' _]]]]]; [|congruence].
    right. exists (messages (ui w)), u, (input (ui w)).
    cbn [ui inflight fst snd messages loading].
    rewrite Hi, Hq. repeat split; auto.
  - destruct (inflight w !! i) as [q|] eqn:Hi; [|assumption].
    apply (settle_chronological w i q); auto using on_fulfilled_appends.
  - destruct (inflight w !! i) as [q|] eqn:Hi; [|assumption].
    apply (settle_chronological w i q); auto using on_rejected_appends.
Qed.

Lemma run_chronological (trace : list event) (w : session) :
  chronological w -> chronological (run p w trace).
Proof.
  revert w. induction trace as [|ev rest IH]; intros w Hw; [assumption|].
  apply IH, step_chronological, Hw.
Qed.

(** An event adds to the user messages the queries it posts. *)
Lemma step_user_texts (w : session) (ev : event) :
  user_texts (messages (ui (step p w ev)))
  = user_texts (messages (ui w))
    ++ List.map VStr match ev with
                     | Submit now => queries (snd (handleSubmit p now (ui w)))
                     | _ => []
                     end.
Proof.
  destruct ev as [text | now | i response now | i e now];
    cbn [step ui List.map]; rewrite ?app_nil_r.
  - reflexivity.
  - destruct (whitespace_only (input (ui w))) eqn:Hws;
      [rewrite handleSubmit_rejected by auto; cbn; by rewrite app_nil_r|].
    destruct (loading (ui w)) eqn:Hl;
      [rewrite handleSubmit_rejected by auto; cbn; by rewrite app_nil_r|].
    destruct (handleSubmit_accepted now (ui w) Hws Hl) as [u [effs [-> [Hq [Hu Hc]]]]].
    cbn [fst snd messages]. rewrite user_texts_app, Hq. f_equal.
    unfold user_texts. cbn. rewrite Hu. cbn. by rewrite Hc.
  - destruct (inflight w !! i); [|reflexivity]. cbn [ui].
    destruct (on_fulfilled_appends response now (ui w)) as [r [-> Hr]].
    cbn [messages]. rewrite user_texts_app. unfold user_texts at 2. cbn.
    rewrite Hr. by rewrite app_nil_r.
  - destruct (inflight w !! i); [|reflexivity]. cbn [ui].
    destruct (on_rejected_appends e now (ui w)) as [r [-> Hr]].
    cbn [messages]. rewrite user_texts_app. unfold user_texts at 2. cbn.
    rewrite Hr. by rewrite app_nil_r.
Qed.

Lemma run_user_texts (trace : list event) (w : session) :
  user_texts (messages (ui (run p w trace)))
  = user_texts (messages (ui w)) ++ List.map VStr (outbound p w trace).
Proof.
  revert w. induction trace as [|ev rest IH]; intros w.
  - cbn. by rewrite app_nil_r.
  - cbn [outbound]. rewrite List.map_app, app_assoc, <- step_user_texts.
    apply IH.
Qed.

(** While a request is in flight it is the only one, at index 0. *)
Lemma chronological_lookup (w : session) (i : nat) :
  chronological w ->
  inflight w !! i = (if loading (ui w) && Nat.eqb i 0
                     then head (inflight w) else None)
  /\ (loading (ui w) = true -> exists q, inflight w = [q]).
Proof.
  intros [[Hl [Hi _]] | [log [u [q [Hl [Hi _]]]]]]; rewrite Hl, Hi.
  - split; [by destruct i | discriminate].
  - split; [by destruct i | eauto].
Qed.

(** An event adds to the user messages the submission the specification
    counts as accepted, if it is one. *)
Lemma step_accepted (w : session) (ev : event) (rest : list event) :
  chronological w ->
  user_texts (messages (ui (step p w ev)))
  ++ List.map VStr (accepted (input (ui (step p w ev)))
                      (loading (ui (step p w ev))) rest)
  = user_texts (messages (ui w))
    ++ List.map VStr (accepted (input (ui w)) (loading (ui w)) (ev :: rest)).
Proof.
  intros Hw.
  destruct ev as [text | now | i response now | i e now]; cbn [step accepted].
  - reflexivity.
  - destruct (loading (ui w)) eqn:Hl; cbn [orb].
    { rewrite handleSubmit_rejected by auto. cbn [fst ui]. by rewrite Hl. }
    destruct (whitespace_only (input (ui w))) eqn:Hws.
    { rewrite handleSubmit_rejected by auto. cbn [fst ui]. by rewrite Hl. }
    destruct (handleSubmit_accepted now (ui w) Hws Hl) as [u [effs [-> [_ [Hu Hc]]]]].
    cbn [fst ui messages input loading List.map].
    rewrite user_texts_app, <- app_assoc. f_equal.
    unfold user_texts. cbn. rewrite Hu. cbn. by rewrite Hc.
  - destruct (chronological_lookup w i Hw) as [-> Hone].
    destruct (loading (ui w)) eqn:Hl; cbn [andb]; [|by rewrite ?Hl].
    destruct (Hone eq_refl) as [q Hq]. rewrite Hq. cbn [head].
    destruct (Nat.eqb i 0); [|by rewrite Hl]. cbn [ui].
    destruct (on_fulfilled_appends response now (ui w)) as [r [-> Hr]].
    cbn [messages input loading]. rewrite user_texts_app.
    unfold user_texts at 2. cbn. rewrite Hr. cbn. by rewrite app_nil_r.
  - destruct (chronological_lookup w i Hw) as [-> Hone].
    destruct (loading (ui w)) eqn:Hl; cbn [andb]; [|by rewrite ?Hl].
    destruct (Hone eq_refl) as [q Hq]. rewrite Hq. cbn [head].
    destruct (Nat.eqb i 0); [|by rewrite Hl]. cbn [ui].
    destruct (on_rejected_appends e now (ui w)) as [r [-> Hr]].
    cbn [messages input loading]. rewrite user_texts_app.
    unfold user_texts at 2. cbn. rewrite Hr. cbn. by rewrite app_nil_r.
Qed.

Lemma run_accepted (trace : list event) (w : session) :
  chronological w ->
  user_texts (messages (ui (run p w trace)))
  = user_texts (messages (ui w))
    ++ List.map VStr (accepted (input (ui w)) (loading (ui w)) trace).
Proof.
  revert w. induction trace as [|ev rest IH]; intros w Hw.
  - cbn. by rewrite app_nil_r.
  - rewrite <- step_accepted by assumption.
    apply (IH (step p w ev)), step_chronological, Hw.
Qed.

End Chat.

(** C4.  Along every sequence of events of one chat session (typing,
    submitting, and requests settling in whatever order the model lets
    them) the log only grows at its end; it consists of complete turns, a
    user message followed by its reply or error, with the user message of
    the turn in flight last when a request is in flight; the texts of its
    user messages are the submissions the specification counts as
    accepted, in the order they were made, and they are the queries posted.
    At any point of the session a submission that is accepted appends its
    user message, holding the text submitted, and puts its query in
    flight; and the request in flight, when it settles, appends its reply
    or error message, after which nothing is in flight. *)
Theorem append_order_is_submission_order (p : ChatBox.props)
    (earlier later : list ChatBox.event) :
  let before := ChatBox.run p ChatBox.start earlier in
  let after := ChatBox.run p ChatBox.start (earlier ++ later) in
  ChatBox.chronological after
  /\ ChatBox.user_texts (ChatBox.messages (ChatBox.ui after))
     = List.map Js.VStr (ChatBox.accepted EmptyString false (earlier ++ later))
  /\ ChatBox.user_texts (ChatBox.messages (ChatBox.ui after))
     = List.map Js.VStr (ChatBox.outbound p ChatBox.start (earlier ++ later))
  /\ (exists suffix,
        ChatBox.messages (ChatBox.ui after)
        = ChatBox.messages (ChatBox.ui before) ++ suffix)
  /\ (forall now,
        ChatBox.whitespace_only (ChatBox.input (ChatBox.ui before)) = false ->
        ChatBox.loading (ChatBox.ui before) = false ->
        ChatBox.messages (ChatBox.ui (ChatBox.step p before (ChatBox.Submit now)))
        = ChatBox.messages (ChatBox.ui before)
          ++ [{| MessageBubble.type := MessageBubble.User;
                 MessageBubble.content := Js.VStr (ChatBox.input (ChatBox.ui before));
                 MessageBubble.data := Js.VUndef; MessageBubble.error := false;
                 MessageBubble.timestamp := now |}]
        /\ ChatBox.inflight (ChatBox.step p before (ChatBox.Submit now))
           = [ChatBox.input (ChatBox.ui before)])
  /\ (forall i q now,
        ChatBox.inflight before !! i = Some q ->
        (forall response,
            exists reply,
              ChatBox.messages
                (ChatBox.ui (ChatBox.step p before (ChatBox.Fulfil i response now)))
              = ChatBox.messages (ChatBox.ui before) ++ [reply]
              /\ MessageBubble.type reply = MessageBubble.Ai
              /\ ChatBox.inflight (ChatBox.step p before (ChatBox.Fulfil i response now))
                 = [])
        /\ (forall e,
              exists reply,
                ChatBox.messages
                  (ChatBox.ui (ChatBox.step p before (ChatBox.Reject i e now)))
                = ChatBox.messages (ChatBox.ui before) ++ [reply]
                /\ MessageBubble.type reply = MessageBubble.Ai
                /\ MessageBubble.error reply = true
                /\ ChatBox.inflight (ChatBox.step p before (ChatBox.Reject i e now))
                   = [])).
Proof.
  cbv zeta.
  assert (forall trace, ChatBox.chronological (ChatBox.run p ChatBox.start trace))
    as Hchron.
  { intros trace. apply run_chronological. left. repeat split. constructor. }
  split; [apply Hchron|]. split; [|split; [|split; [|split]]].
  - rewrite run_accepted; [reflexivity|]. left. repeat split. constructor.
  - by rewrite run_user_texts.
  - unfold ChatBox.run. rewrite fold_left_app. apply run_appends.
  - intros now Hws Hl. cbn [ChatBox.step].
    destruct (Hchron earlier) as [[_ [Hi _]] | [log [u [q [Hl' _]]]]]; [|congruence].
    unfold ChatBox.handleSubmit.
    destruct (negb _ || ChatBox.loading _) eqn:Hrej.
    { apply rejected_iff in Hrej as [Hrej | Hrej]; congruence. }
    cbn [fst snd ChatBox.ui ChatBox.inflight ChatBox.messages]. rewrite Hi.
    split; [reflexivity|].
    destruct (_ && ChatBox.onFirstMessage p); reflexivity.
  - intros i q now Hi.
    destruct (Hchron earlier) as [[_ [Hnone _]] | [log [u [q' [_ [Hone _]]]]]];
      [rewrite Hnone in Hi; discriminate|].
    cbn [ChatBox.step]. rewrite Hi. cbn [ChatBox.ui ChatBox.inflight].
    rewrite Hone in *. destruct i; [|discriminate]. cbn [delete list_delete].
    split.
    + intros response.
      destruct (on_fulfilled_appends response now
                  (ChatBox.ui (ChatBox.run p ChatBox.start earlier)))
        as [r [-> Hr]].
      exists r. repeat split. exact Hr.
    + intros e. eexists. repeat split.
Qed.

Lemma append_order_is_submission_order_witness :
  let p := {| ChatBox.onFirstMessage := true; ChatBox.resetTrigger := 0 |} in
  let typed := ChatBox.run p ChatBox.start [ChatBox.Typing "Panadol"] in
  let posted := ChatBox.run p ChatBox.start
                  [ChatBox.Typing "Panadol"; ChatBox.Submit 1] in
  ChatBox.inflight (ChatBox.step p typed (ChatBox.Submit 1)) = ["Panadol"]
  /\ exists reply,
       ChatBox.messages
         (ChatBox.ui (ChatBox.step p posted
                        (ChatBox.Fulfil 0 (Js.VObj [("medicine_name", Js.VStr "Panadol")]) 2)))
       = ChatBox.messages (ChatBox.ui posted) ++ [reply].
Proof.
  cbv zeta. split.
  - destruct (append_order_is_submission_order
                {| ChatBox.onFirstMessage := true; ChatBox.resetTrigger := 0 |}
                [ChatBox.Typing "Panadol"] [])
      as (_ & _ & _ & _ & Hsubmit & _).
    apply (Hsubmit 1); reflexivity.
  - destruct (append_order_is_submission_order
                {| ChatBox.onFirstMessage := true; ChatBox.resetTrigger := 0 |}
                [ChatBox.Typing "Panadol"; ChatBox.Submit 1] [])
      as (_ & _ & _ & _ & _ & Hsettle).
    destruct (Hsettle 0%nat "Panadol" 2 eq_refl) as [Hfulfil _].
    destruct (Hfulfil (Js.VObj [("medicine_name", Js.VStr "Panadol")]))
      as [reply [Hreply _]].
    exists reply. exact Hreply.
Defined.

(** C5.  When the input is empty or all white space, or a request is in
    flight, submitting changes nothing: the state, and with it the message
    list, is returned as it was, no request is posted and no callback is
    called. *)
Theorem submit_guard (p : ChatBox.props) (now : Z) (w : ChatBox.session) :
  ChatBox.whitespace_only (ChatBox.input (ChatBox.ui w)) = true
  \/ ChatBox.loading (ChatBox.ui w) = true ->
  ChatBox.handleSubmit p now (ChatBox.ui w) = (ChatBox.ui w, [])
  /\ ChatBox.step p w (ChatBox.Submit now) = w.
Proof.
  intros H. pose proof (handleSubmit_rejected p now _ H) as Hrej.
  split; [assumption|]. cbn. rewrite Hrej. cbn. rewrite app_nil_r.
  by destruct w.
Qed.

Lemma submit_guard_witness :
  let blank := {| ChatBox.ui := ChatBox.setInput "  " ChatBox.initial;
                  ChatBox.inflight := [] |} in
  ChatBox.step {| ChatBox.onFirstMessage := true; ChatBox.resetTrigger := 0 |}
    blank (ChatBox.Submit 7) = blank.
Proof.
  cbv zeta.
  apply (submit_guard {| ChatBox.onFirstMessage := true; ChatBox.resetTrigger := 0 |}
           7 {| ChatBox.ui := ChatBox.setInput "  " ChatBox.initial;
                ChatBox.inflight := [] |}).
  left. reflexivity.
Defined.

(** ** Suggestions *)

Section Suggestions.
Import AutoComplete.

Lemma append_cons (c : ascii) (a b : string) :
  String c a +:+ b = String c (a +:+ b).
Proof. reflexivity. Qed.

Lemma startsWith_prefix (s t : string) :
  startsWith s t = true -> exists after, s = t +:+ after.
Proof.
  revert s. induction t as [|b t' IH]; intros s H.
  - by exists s.
  - destruct s as [|a s']; [discriminate|]. cbn in H.
    apply andb_prop in H as [Hab Hrest].
    apply Ascii.eqb_eq in Hab as ->.
    destruct (IH s' Hrest) as [after ->].
    by exists after.
Qed.

Lemma includes_occurs (s t : string) :
  includes s t = true -> exists before after, s = before +:+ t +:+ after.
Proof.
  induction s as [|a s' IH]; intros H.
  - change (startsWith EmptyString t || false = true) in H.
    rewrite orb_false_r in H. apply startsWith_prefix in H as [after ->].
    by exists EmptyString, after.
  - change (startsWith (String a s') t || includes s' t = true) in H.
    apply orb_prop in H as [H | H].
    + apply startsWith_prefix in H as [after ->]. by exists EmptyString, after.
    + destruct (IH H) as [before [after ->]].
      by exists (String a before), after.
Qed.

(** A string whose lower-case form is a concatenation splits at the same
    places. *)
Lemma toLowerCase_split (m a b : string) :
  toLowerCase m = a +:+ b ->
  exists m1 m2, m = m1 +:+ m2 /\ toLowerCase m1 = a /\ toLowerCase m2 = b.
Proof.
  revert m. induction a as [|c a' IH]; intros m H.
  - by exists EmptyString, m.
  - destruct m as [|d m']; [discriminate|].
    rewrite append_cons in H. cbn in H. injection H as Hc Hrest.
    destruct (IH m' Hrest) as [m1 [m2 [-> [H1 H2]]]].
    exists (String d m1), m2. cbn. by rewrite Hc, H1, H2.
Qed.

Lemma filtered_sound (value : string) (directory : list string) (m : string) :
  In m (filtered value directory) ->
  In m directory /\ contains_ignoring_case m value.
Proof.
  unfold filtered. intros Hin.
  assert (In m (List.filter
                  (fun med => includes (toLowerCase med) (toLowerCase value))
                  directory)) as Hf.
  { apply list_elem_of_In. apply list_elem_of_In in Hin.
    eapply subseteq_take, Hin. }
  apply filter_In in Hf as [Hdir Hinc]. split; [assumption|].
  apply includes_occurs in Hinc as [before [after Hm]].
  apply toLowerCase_split in Hm as [m1 [rest [-> [_ Hrest]]]].
  apply toLowerCase_split in Hrest as [stretch [m3 [-> [Hs _]]]].
  by exists m1, stretch, m3.
Qed.

End Suggestions.

(** C6.  For the empty query the suggestion list is empty.  For every
    query [x] and every cached directory the list has at most five
    elements, and each of them is a name of the directory in which [x]
    occurs up to the case of letters. *)
Theorem suggestions_bounded_and_matching :
  (forall directory, AutoComplete.suggest EmptyString directory = [])
  /\ (forall x directory,
        (List.length (AutoComplete.suggest x directory) <= 5)%nat
        /\ forall m, In m (AutoComplete.suggest x directory) ->
             In m directory /\ AutoComplete.contains_ignoring_case m x).
Proof.
  split; [reflexivity|]. intros x directory.
  unfold AutoComplete.suggest, AutoComplete.update.
  destruct (0 <? String.length x)%nat; cbn [AutoComplete.suggestions AutoComplete.allMedicines].
  - split.
    + unfold AutoComplete.filtered. rewrite length_take. lia.
    + apply filtered_sound.
  - split; [cbn; lia|]. intros m [].
Qed.

Lemma suggestions_bounded_and_matching_witness :
  AutoComplete.suggest "pan" ["Brufen"; "Panadol"; "Japan Plus"] = ["Panadol"; "Japan Plus"]
  /\ AutoComplete.contains_ignoring_case "Panadol" "pan".
Proof.
  split; [reflexivity|].
  destruct suggestions_bounded_and_matching as [_ H].
  destruct (H "pan" ["Brufen"; "Panadol"; "Japan Plus"]) as [_ Hm].
  apply (Hm "Panadol"). vm_compute. left. reflexivity.
Defined.

(** ** The camera *)

Section Camera.
Import Js Dom Api CameraCapture.

Lemma all_stopped (stream : list track) :
  Forall (fun t => live t = false) (List.map stop stream).
Proof. induction stream as [|t rest IH]; cbn; by constructor. Qed.

Lemma stopCamera_released (s : state) : released (stopCamera s) \/ streamRef s = None.
Proof.
  unfold stopCamera. destruct (streamRef s) as [stream|] eqn:Href; [left|by right].
  intros stream' [= <-]. apply all_stopped.
Qed.


End Camera.




(** ** Capability failures *)

Section Capabilities.
Import Js Dom Api.

Lemma error_boxes_app (a b : list node) :
  error_boxes (a ++ b) = error_boxes a ++ error_boxes b.
Proof. apply flat_map_app. Qed.

Lemma error_boxes_guard (c : value) (rest : list node) :
  error_boxes (guard c rest) = if truthy c then error_boxes rest else [].
Proof. unfold guard. destruct (truthy c); [reflexivity|]. by destruct c. Qed.

Lemma error_boxes_guardb (c : bool) (rest : list node) :
  error_boxes (guardb c rest) = if c then error_boxes rest else [].
Proof. by destruct c. Qed.

Lemma error_boxes_card (heading : string) (r : value) :
  error_boxes (ResultCard.card heading r) = [].
Proof.
  unfold ResultCard.card.
  rewrite error_boxes_guard, !error_boxes_app, !error_boxes_guard,
    !error_boxes_guardb.
  cbn [error_boxes flat_map app]. by rewrite !if_same.
Qed.

(** The camera view shows the error it holds, and nothing else, in its
    error box. *)
Lemma camera_view_error_boxes (s : CameraCapture.state) :
  error_boxes (CameraCapture.view s)
  = if truthy (CameraCapture.error s) then [CameraCapture.error s] else [].
Proof.
  unfold CameraCapture.view.
  rewrite !error_boxes_app, !error_boxes_guard, !error_boxes_guardb,
    error_boxes_card.
  cbn [error_boxes flat_map app]. rewrite !if_same, app_nil_r.
  reflexivity.
Qed.

Lemma upload_view_error_boxes (s : ImageUploader.state) :
  error_boxes (ImageUploader.view s)
  = if truthy (ImageUploader.error s) then [ImageUploader.error s] else [].
Proof.
  unfold ImageUploader.view.
  rewrite !error_boxes_app, !error_boxes_guard, error_boxes_card.
  cbn [error_boxes flat_map app]. rewrite !if_same, app_nil_r.
  reflexivity.
Qed.

Lemma camera_failed_start_again (msg : string) (s : CameraCapture.state) :
  truthy (CameraCapture.captured s) = false ->
  clickable "Start Camera" (CameraCapture.view (CameraCapture.camera_failed msg s))
  = true.
Proof.
  intros Hc. unfold CameraCapture.view, clickable.
  cbn [CameraCapture.camera_failed CameraCapture.streaming CameraCapture.captured].
  rewrite Hc. reflexivity.
Qed.

Lemma camera_failed_retake_again (msg : string) (s : CameraCapture.state) :
  truthy (CameraCapture.captured s) = true ->
  clickable "Retake" (CameraCapture.view (CameraCapture.camera_failed msg s))
  = true.
Proof.
  intros Hc. unfold CameraCapture.view, clickable, guard.
  cbn [CameraCapture.camera_failed CameraCapture.streaming CameraCapture.captured
       CameraCapture.loading].
  rewrite Hc. cbn [negb andb guardb app existsb].
  destruct (CameraCapture.loading s); cbn; by rewrite ?orb_true_r.
Qed.

End Capabilities.

(** C8, as stated, fails for the microphone: where the browser has no
    speech recognition, pressing the voice button makes the component
    return [null] from then on; the control is gone and no error is shown. *)
Lemma voice_unsupported_removes_control :
  VoiceInput.view VoiceInput.initial = Some [Dom.Button "mic" false]
  /\ VoiceInput.view (fst (VoiceInput.startListening false VoiceInput.initial))
     = None.
Proof. split; reflexivity. Qed.

(** C8, amended.  A camera request that is refused, or that the browser
    cannot serve, is shown in the error box of the camera view as
    ["Camera error: "] followed by the reason; the view stops streaming
    and keeps the button that started the request clickable (start, or
    retake while a frame is held), and the same action granted afterwards
    streams with the error cleared.  A microphone without speech
    recognition hides the voice control and shows nothing.  A recognition
    that reports an error leaves the control in place and enabled, and
    pressing it starts a new recognition. *)
Theorem capability_failure_handling :
  (forall (s : CameraCapture.state) (msg : string),
      let s' := CameraCapture.camera_failed msg s in
      CameraCapture.streaming s' = false
      /\ Dom.error_boxes (CameraCapture.view s')
         = [Js.VStr ("Camera error: " +:+ msg)]
      /\ (Js.truthy (CameraCapture.captured s) = false ->
          Dom.clickable "Start Camera" (CameraCapture.view s') = true
          /\ forall stream,
               let again := CameraCapture.camera_granted stream
                              (CameraCapture.startCamera s') in
               CameraCapture.streaming_granted again
               /\ CameraCapture.error again = Js.VNull)
      /\ (Js.truthy (CameraCapture.captured s) = true ->
          Dom.clickable "Retake" (CameraCapture.view s') = true
          /\ forall stream,
               let again := CameraCapture.camera_granted stream
                              (CameraCapture.retake s') in
               CameraCapture.streaming_granted again
               /\ CameraCapture.error again = Js.VNull))
  /\ (forall s : VoiceInput.state,
        VoiceInput.view (fst (VoiceInput.startListening false s)) = None
        /\ snd (VoiceInput.startListening false s) = false)
  /\ (forall s : VoiceInput.state,
        VoiceInput.supported s = true ->
        VoiceInput.view (VoiceInput.onerror s) = Some [Dom.Button "mic" false]
        /\ VoiceInput.startListening true (VoiceInput.onerror s)
           = (VoiceInput.onerror s, true)).
Proof.
  split; [|split].
  - intros s msg s'. split; [reflexivity|]. split; [|split].
    + rewrite camera_view_error_boxes. reflexivity.
    + intros Hc. split; [by apply camera_failed_start_again|].
      intros stream again. split; [|reflexivity].
      split; [reflexivity|]. by exists stream.
    + intros Hc. split; [by apply camera_failed_retake_again|].
      intros stream again. split; [|reflexivity].
      split; [reflexivity|]. by exists stream.
  - intros s. split; reflexivity.
  - intros s Hs. unfold VoiceInput.view, VoiceInput.onerror. cbn. rewrite Hs.
    split; reflexivity.
Qed.

Lemma capability_failure_handling_witness :
  Dom.clickable "Start Camera"
    (CameraCapture.view
       (CameraCapture.camera_failed "Permission denied"
          (CameraCapture.startCamera CameraCapture.initial))) = true
  /\ VoiceInput.view (VoiceInput.onerror (VoiceInput.onstart VoiceInput.initial))
     = Some [Dom.Button "mic" false].
Proof.
  destruct capability_failure_handling as [Hcam [_ Hvoice]].
  split.
  - apply (Hcam (CameraCapture.startCamera CameraCapture.initial) "Permission denied").
    reflexivity.
  - apply (Hvoice (VoiceInput.onstart VoiceInput.initial)). reflexivity.
Defined.

(** ** Stale output *)

Section StaleOutput.
Import Js Dom Api.

(** With no upload in flight, a clear image view stays clear until the
    next click on analyze. *)
Lemma upload_quiet_step (w : ImageUploader.world) (ev : ImageUploader.event) :
  ImageUploader.uploads w = [] ->
  ImageUploader.shows_no_output (ImageUploader.ui w) ->
  ImageUploader.is_click_analyze ev = false ->
  ImageUploader.uploads (ImageUploader.step w ev) = []
  /\ ImageUploader.shows_no_output (ImageUploader.ui (ImageUploader.step w ev)).
Proof.
  intros Hup Hclear Hev.
  destruct ev as [chosen url | | i response | i e]; [|discriminate| |]; cbn.
  - split; [assumption|]. destruct chosen; [by split|assumption].
  - rewrite Hup. by destruct i.
  - rewrite Hup. by destruct i.
Qed.

Lemma upload_quiet_run (later : list ImageUploader.event) (w : ImageUploader.world) :
  ImageUploader.uploads w = [] ->
  ImageUploader.shows_no_output (ImageUploader.ui w) ->
  forallb (fun ev => negb (ImageUploader.is_click_analyze ev)) later = true ->
  ImageUploader.shows_no_output (ImageUploader.ui (ImageUploader.run w later)).
Proof.
  revert w. induction later as [|ev rest IH]; intros w Hup Hclear Hlater.
  - assumption.
  - cbn in Hlater. apply andb_prop in Hlater as [Hev Hrest].
    apply negb_true_iff in Hev.
    destruct (upload_quiet_step w ev Hup Hclear Hev) as [Hup' Hclear'].
    apply (IH _ Hup' Hclear' Hrest).
Qed.

(** The same for the camera view and its analyses. *)
Lemma camera_quiet_step (w : CameraCapture.world) (ev : CameraCapture.event) :
  CameraCapture.analyses w = O ->
  CameraCapture.shows_no_analysis_output (CameraCapture.ui w) ->
  CameraCapture.is_click_analyze ev = false ->
  CameraCapture.analyses (CameraCapture.step w ev) = O
  /\ CameraCapture.shows_no_analysis_output
       (CameraCapture.ui (CameraCapture.step w ev)).
Proof.
  intros Han Hclear Hev.
  assert (Hsame : CameraCapture.analyses w = O
                  /\ CameraCapture.shows_no_analysis_output (CameraCapture.ui w))
    by (by split).
  destruct Hclear as [Hres Herr].
  destruct ev; try discriminate; unfold CameraCapture.step;
    try (destruct (clickable _ _); [|exact Hsame]);
    try (destruct (CameraCapture.camera_requests w); [exact Hsame|]);
    try (rewrite Han; exact Hsame);
    cbn [CameraCapture.ui CameraCapture.analyses]; (split; [assumption|]);
    unfold CameraCapture.shows_no_analysis_output.
  - split; [assumption | by left].
  - unfold CameraCapture.stopCamera.
    destruct (CameraCapture.streamRef _); by split.
  - unfold CameraCapture.captureImage, CameraCapture.stopCamera.
    cbn [CameraCapture.streamRef].
    destruct (CameraCapture.streamRef _); by split.
  - split; [reflexivity | by left].
  - unfold CameraCapture.camera_granted.
    destruct (CameraCapture.streaming _); by split.
  - split; [assumption | right; by exists msg].
Qed.

Lemma camera_quiet_run (later : list CameraCapture.event) (w : CameraCapture.world) :
  CameraCapture.analyses w = O ->
  CameraCapture.shows_no_analysis_output (CameraCapture.ui w) ->
  forallb (fun ev => negb (CameraCapture.is_click_analyze ev)) later = true ->
  CameraCapture.shows_no_analysis_output
    (CameraCapture.ui (CameraCapture.run w later)).
Proof.
  revert w. induction later as [|ev rest IH]; intros w Han Hclear Hlater.
  - assumption.
  - cbn in Hlater. apply andb_prop in Hlater as [Hev Hrest].
    apply negb_true_iff in Hev.
    destruct (camera_quiet_step w ev Han Hclear Hev) as [Han' Hclear'].
    apply (IH _ Han' Hclear' Hrest).
Qed.

End StaleOutput.

(** C10, as stated, fails while a request is in flight.  Selecting a
    file, pressing analyze, selecting another file and then receiving the
    answer for the first shows that answer beside the preview of the
    second file, with no analysis of the second file asked for. *)
Lemma stale_result_beside_new_file :
  let first := {| ImageUploader.file_name := "first.jpg" |} in
  let second := {| ImageUploader.file_name := "second.jpg" |} in
  let answer := Js.VObj [("medicine_name", Js.VStr "Panadol")] in
  let w := ImageUploader.run ImageUploader.start
             [ImageUploader.SelectFile (Some first) "blob:first";
              ImageUploader.ClickAnalyze;
              ImageUploader.SelectFile (Some second) "blob:second";
              ImageUploader.Fulfil 0 answer] in
  ImageUploader.selectedFile (ImageUploader.ui w) = Some second
  /\ ImageUploader.preview (ImageUploader.ui w) = Js.VStr "blob:second"
  /\ ImageUploader.result (ImageUploader.ui w) = answer
  /\ In (Dom.MedicineName (Js.VStr "Panadol"))
       (ImageUploader.view (ImageUploader.ui w))
  /\ ~ ImageUploader.shows_no_output (ImageUploader.ui w).
Proof.
  cbv zeta. split; [|split; [|split; [|split]]]; try reflexivity.
  - cbn. repeat (first [left; reflexivity | right]).
  - intros [H _]. discriminate H.
Qed.

(** C10, amended.  Selecting a file sets the new preview and clears the
    result and the error in the same update, so the view shows neither
    beside the new preview; retake clears the frame, the result and the
    error and restarts the camera.  When no request is in flight at that
    moment, no result and no analysis error appears until analyze is
    pressed again.  (A request in flight at that moment is not cancelled.) *)
Theorem stale_output_reset :
  (forall (s : ImageUploader.state) f objectURL,
      let s' := ImageUploader.handleFileSelect (Some f) objectURL s in
      ImageUploader.selectedFile s' = Some f
      /\ ImageUploader.preview s' = Js.VStr objectURL
      /\ ImageUploader.shows_no_output s'
      /\ Dom.error_boxes (ImageUploader.view s') = []
      /\ ResultCard.card "Image Analysis Result" (ImageUploader.result s') = [])
  /\ (forall s : CameraCapture.state,
        let s' := CameraCapture.retake s in
        CameraCapture.captured s' = Js.VNull
        /\ CameraCapture.shows_no_output s'
        /\ CameraCapture.streaming s' = true
        /\ Dom.error_boxes (CameraCapture.view s') = []
        /\ ResultCard.card "Camera Scan Result" (CameraCapture.result s') = [])
  /\ (forall (w : ImageUploader.world) f objectURL later,
        ImageUploader.uploads w = [] ->
        forallb (fun ev => negb (ImageUploader.is_click_analyze ev)) later = true ->
        ImageUploader.shows_no_output
          (ImageUploader.ui
             (ImageUploader.run
                (ImageUploader.step w (ImageUploader.SelectFile (Some f) objectURL))
                later)))
  /\ (forall (w : CameraCapture.world) later,
        CameraCapture.analyses w = O ->
        Dom.clickable "Retake" (CameraCapture.view (CameraCapture.ui w)) = true ->
        forallb (fun ev => negb (CameraCapture.is_click_analyze ev)) later = true ->
        CameraCapture.shows_no_analysis_output
          (CameraCapture.ui
             (CameraCapture.run (CameraCapture.step w CameraCapture.ClickRetake)
                later))).
Proof.
  split; [|split; [|split]].
  - intros s f url s'. repeat split; by rewrite upload_view_error_boxes.
  - intros s s'. repeat split; by rewrite camera_view_error_boxes.
  - intros w f url later Hup Hlater.
    apply upload_quiet_run; [assumption | by split | assumption].
  - intros w later Han Hclick Hlater.
    apply camera_quiet_run; [| |assumption].
    + cbn -[CameraCapture.view]. by rewrite Hclick.
    + cbn -[CameraCapture.view]. rewrite Hclick. split; [reflexivity | by left].
Qed.

Lemma stale_output_reset_witness :
  let first := {| ImageUploader.file_name := "first.jpg" |} in
  let second := {| ImageUploader.file_name := "second.jpg" |} in
  let answer := Js.VObj [("medicine_name", Js.VStr "Panadol")] in
  ImageUploader.shows_no_output
    (ImageUploader.ui
       (ImageUploader.run
          (ImageUploader.step
             (ImageUploader.run ImageUploader.start
                [ImageUploader.SelectFile (Some first) "blob:first";
                 ImageUploader.ClickAnalyze; ImageUploader.Fulfil 0 answer])
             (ImageUploader.SelectFile (Some second) "blob:second"))
          [ImageUploader.Fulfil 0 answer]))
  /\ CameraCapture.shows_no_analysis_output
       (CameraCapture.ui
          (CameraCapture.run
             (CameraCapture.step
                (CameraCapture.run CameraCapture.start
                   [CameraCapture.ClickStart;
                    CameraCapture.Granted
                      [{| CameraCapture.kind := "video"; CameraCapture.live := true |}];
                    CameraCapture.ClickCapture "data:image/jpeg;base64,AA";
                    CameraCapture.ClickAnalyze;
                    CameraCapture.AnalysisFulfil answer])
                CameraCapture.ClickRetake)
             [CameraCapture.Failed "Permission denied"])).
Proof.
  cbv zeta. destruct stale_output_reset as (_ & _ & Himage & Hcamera). split.
  - apply Himage; reflexivity.
  - apply Hcamera; reflexivity.
Defined.

(** ** Sessions *)

Section Sessions.
Import Sidebar.

Lemma without_sound (chatId : chat_id) (history : list chat) (c : chat) :
  In c (without chatId history) <-> In c history /\ id c <> chatId.
Proof.
  unfold without. rewrite filter_In, negb_true_iff, bool_decide_eq_false.
  reflexivity.
Qed.

Lemma mount_is_empty (p : ChatBox.props) : ChatBox.mount p = ChatBox.initial.
Proof.
  unfold ChatBox.mount, ChatBox.reset_effect.
  destruct (Js.truthy _); reflexivity.
Qed.

(** As App mounts it, Sidebar is given no [currentChatId]: deleting a
    chat that has an id leaves App as it is. *)
Lemma delete_as_wired_keeps_session (chatId : chat_id) (w : page) :
  chatId <> IdUndefined ->
  app (handleDeleteChat props_from_app chatId w) = app w.
Proof.
  intros Hid. unfold handleDeleteChat. cbn.
  rewrite bool_decide_eq_false_2; [reflexivity|]. cbn. congruence.
Qed.

End Sessions.





(** * Further properties of the components *)

(** ** Cards *)

Section Cards.
Import Js Dom.

Variable coerced_gt0 : value -> bool.

Lemma flat_map_guard {A} (f : node -> list A) (c : value) (rest : list node) :
  (forall v, f (RawChild v) = []) ->
  flat_map f (guard c rest) = if truthy c then flat_map f rest else [].
Proof.
  intros Hraw. unfold guard. destruct (truthy c); [reflexivity|].
  destruct c; cbn; rewrite ?Hraw; reflexivity.
Qed.

Lemma flat_map_guardb {A} (f : node -> list A) (c : bool) (rest : list node) :
  flat_map f (guardb c rest) = if c then flat_map f rest else [].
Proof. by destruct c. Qed.

(** Rewrites a picker over a view into conditions on the payload. *)
Ltac pick_apart :=
  rewrite ?flat_map_app, ?flat_map_guardb;
  repeat (rewrite flat_map_guard by reflexivity);
  rewrite ?flat_map_app, ?flat_map_guardb;
  repeat (rewrite flat_map_guard by reflexivity);
  rewrite ?flat_map_guardb;
  cbn [flat_map app]; rewrite ?if_same; cbn [app]; rewrite ?app_nil_r.

Lemma structured_generic (d : value) :
  generic_lines (MessageBubble.structured coerced_gt0 d)
  = if truthy (get d "generic_name") && strict_neq_str (get d "generic_name") "N/A"
    then [get d "generic_name"] else [].
Proof.
  unfold generic_lines, MessageBubble.structured. pick_apart.
  destruct (truthy _); [|reflexivity]. by destruct (strict_neq_str _ _).
Qed.

Lemma structured_manufacturer (d : value) :
  manufacturer_lines (MessageBubble.structured coerced_gt0 d)
  = if truthy (get d "manufacturer") && strict_neq_str (get d "manufacturer") "N/A"
    then [get d "manufacturer"] else [].
Proof.
  unfold manufacturer_lines, MessageBubble.structured. pick_apart.
  destruct (truthy _); [|reflexivity]. by destruct (strict_neq_str _ _).
Qed.

Lemma card_generic (heading : string) (r : value) :
  generic_lines (ResultCard.card heading r)
  = if truthy r && truthy (get r "generic_name")
       && strict_neq_str (get r "generic_name") "N/A"
    then [get r "generic_name"] else [].
Proof.
  unfold generic_lines, ResultCard.card.
  rewrite flat_map_guard by reflexivity.
  destruct (truthy r); [|reflexivity]. pick_apart. cbn [andb].
  destruct (truthy _); [|reflexivity]. by destruct (strict_neq_str _ _).
Qed.

Lemma card_manufacturer (heading : string) (r : value) :
  manufacturer_lines (ResultCard.card heading r)
  = if truthy r && truthy (get r "manufacturer")
       && strict_neq_str (get r "manufacturer") "N/A"
    then [get r "manufacturer"] else [].
Proof.
  unfold manufacturer_lines, ResultCard.card.
  rewrite flat_map_guard by reflexivity.
  destruct (truthy r); [|reflexivity]. pick_apart. cbn [andb].
  destruct (truthy _); [|reflexivity]. by destruct (strict_neq_str _ _).
Qed.

Lemma structured_plain_texts (d : value) :
  plain_texts (MessageBubble.structured coerced_gt0 d) = [].
Proof. unfold plain_texts, MessageBubble.structured. by pick_apart. Qed.

Lemma guard_nullish (c : value) (rest : list node) :
  nullish c = true -> guard c rest = [].
Proof. by destruct c. Qed.

End Cards.

(** X1.  In the chat card and in the card of the image and camera views
    the generic-name line and the manufacturer line are shown exactly when
    the field holds a truthy value other than the text ["N/A"]; any other
    text, ["Information not available"] included, is shown. *)
Theorem generic_and_manufacturer_shown_unless_na (payload : Js.value) :
  let shown field :=
    if Js.truthy (Js.get payload field)
       && Js.strict_neq_str (Js.get payload field) "N/A"
    then [Js.get payload field] else [] in
  (forall coerced_gt0,
      Dom.generic_lines (MessageBubble.structured coerced_gt0 payload)
      = shown "generic_name"
      /\ Dom.manufacturer_lines (MessageBubble.structured coerced_gt0 payload)
         = shown "manufacturer")
  /\ (forall heading,
        Dom.generic_lines (ResultCard.card heading payload)
        = (if Js.truthy payload then shown "generic_name" else [])
        /\ Dom.manufacturer_lines (ResultCard.card heading payload)
           = (if Js.truthy payload then shown "manufacturer" else [])).
Proof.
  cbv zeta. split.
  - intros gt0. by rewrite structured_generic, structured_manufacturer.
  - intros heading. rewrite card_generic, card_manufacturer.
    destruct (Js.truthy payload); split; reflexivity.
Qed.

(** X2.  A payload whose optional fields are all absent or [null] gives a
    card made of the name header alone, in the chat view and, when the
    payload is truthy, in the image and camera views; no field that is
    missing makes a card fail or show a placeholder. *)
Theorem absent_fields_are_left_out (coerced_gt0 : Js.value -> bool) (d : Js.value) :
  (forall k, In k ResultCard.optional_fields -> Js.nullish (Js.get d k) = true) ->
  MessageBubble.structured coerced_gt0 d
  = [Dom.MedicineName (Js.get d "medicine_name")]
  /\ (forall heading,
        Js.truthy d = true ->
        ResultCard.card heading d
        = [Dom.Heading heading; Dom.MedicineName (Js.get d "medicine_name")]).
Proof.
  intros Habsent.
  assert (forall k rest, In k ResultCard.optional_fields ->
                         Dom.guard (Js.get d k) rest = []) as Hgone
    by (intros k rest Hk; apply guard_nullish, Habsent, Hk).
  split.
  - unfold MessageBubble.structured.
    rewrite !Hgone by (cbn; tauto). reflexivity.
  - intros heading Hd. unfold ResultCard.card, Dom.guard at 1. rewrite Hd.
    rewrite !Hgone by (cbn; tauto). reflexivity.
Qed.

Lemma absent_fields_are_left_out_witness :
  MessageBubble.structured (fun _ => false)
    (Js.VObj [("medicine_name", Js.VStr "Panadol"); ("uses", Js.VNull)])
  = [Dom.MedicineName (Js.VStr "Panadol")].
Proof.
  apply (absent_fields_are_left_out (fun _ => false)
           (Js.VObj [("medicine_name", Js.VStr "Panadol"); ("uses", Js.VNull)])).
  intros k Hk. cbn in Hk.
  repeat (destruct Hk as [<- | Hk]; [reflexivity|]). destruct Hk.
Defined.

(** X3.  The text a successful reply carries ([ai_explanation], else
    [description], else [explanation]) is never drawn as the text of the
    message: for a truthy response the message is drawn as a card, which
    reads the fields of the response and has no plain text, and for a
    falsy one ([0], [false], the empty string) the plain text is the fixed
    ["No explanation available"]. *)
Theorem reply_text_is_not_displayed (coerced_gt0 : Js.value -> bool)
    (response : Js.value) (now : Z) (s : ChatBox.state) :
  Js.nullish response = false ->
  exists m,
    ChatBox.messages (ChatBox.on_fulfilled response now s)
    = ChatBox.messages s ++ [m]
    /\ MessageBubble.data m = response
    /\ Dom.plain_texts (MessageBubble.MessageBubble coerced_gt0 m)
       = if Js.truthy response then [] else [Js.VStr ChatBox.no_explanation].
Proof.
  intros Hresp. unfold ChatBox.on_fulfilled. rewrite Hresp.
  eexists. split; [reflexivity|]. split; [reflexivity|].
  unfold MessageBubble.MessageBubble, Dom.plain_texts.
  cbn [MessageBubble.type MessageBubble.error MessageBubble.data
       MessageBubble.content MessageBubble.timestamp negb Dom.guardb app].
  rewrite !flat_map_app, flat_map_guard by reflexivity.
  fold (Dom.plain_texts (MessageBubble.structured coerced_gt0 response)).
  rewrite structured_plain_texts.
  destruct response; try discriminate; cbn; try reflexivity.
  - by destruct b.
  - by destruct n.
  - by destruct s0.
Qed.

Lemma reply_text_is_not_displayed_witness :
  exists m,
    ChatBox.messages
      (ChatBox.on_fulfilled
         (Js.VObj [("medicine_name", Js.VStr "Panadol");
                   ("ai_explanation", Js.VStr "Relieves pain")])
         3 ChatBox.initial) = [m]
    /\ Dom.plain_texts (MessageBubble.MessageBubble (fun _ => false) m) = [].
Proof.
  destruct (reply_text_is_not_displayed (fun _ => false)
              (Js.VObj [("medicine_name", Js.VStr "Panadol");
                        ("ai_explanation", Js.VStr "Relieves pain")])
              3 ChatBox.initial eq_refl) as [m [Hm [_ Ht]]].
  exists m. split; [exact Hm | exact Ht].
Defined.

(** ** The chat session, continued *)

(** X4.  A submission whose input has a character that is not white space,
    made while nothing is loading, is accepted: it appends one user
    message holding the input as typed (not trimmed), empties the input,
    sets loading and posts exactly one query, the input as typed; the
    first-message callback is called exactly when the log was empty and
    the parent gave the callback. *)
Theorem submit_accepts_raw_input (p : ChatBox.props) (now : Z) (s : ChatBox.state) :
  ChatBox.whitespace_only (ChatBox.input s) = false ->
  ChatBox.loading s = false ->
  let r := ChatBox.handleSubmit p now s in
  ChatBox.queries (snd r) = [ChatBox.input s]
  /\ ChatBox.messages (fst r)
     = ChatBox.messages s
       ++ [{| MessageBubble.type := MessageBubble.User;
              MessageBubble.content := Js.VStr (ChatBox.input s);
              MessageBubble.data := Js.VUndef; MessageBubble.error := false;
              MessageBubble.timestamp := now |}]
  /\ ChatBox.input (fst r) = EmptyString
  /\ ChatBox.loading (fst r) = true
  /\ (In ChatBox.CallOnFirstMessage (snd r)
      <-> ChatBox.messages s = [] /\ ChatBox.onFirstMessage p = true).
Proof.
  intros Hws Hl r. subst r. unfold ChatBox.handleSubmit.
  destruct (negb _ || ChatBox.loading s) eqn:Hrej.
  { apply rejected_iff in Hrej as [Hrej | Hrej]; congruence. }
  cbn [fst snd ChatBox.messages ChatBox.input ChatBox.loading].
  split; [|split; [reflexivity|split; [reflexivity|split; [reflexivity|]]]].
  - destruct (_ && ChatBox.onFirstMessage p); reflexivity.
  - destruct (ChatBox.messages s) as [|m rest], (ChatBox.onFirstMessage p);
      cbn; split; intros H; try (destruct H as [H | H]; try discriminate H);
      try (destruct H; discriminate); try done; auto.
Qed.

Lemma submit_accepts_raw_input_witness :
  ChatBox.queries
    (snd (ChatBox.handleSubmit
            {| ChatBox.onFirstMessage := true; ChatBox.resetTrigger := 0 |} 7
            (ChatBox.setInput " Panadol " ChatBox.initial)))
  = [" Panadol "].
Proof.
  apply (submit_accepts_raw_input
           {| ChatBox.onFirstMessage := true; ChatBox.resetTrigger := 0 |} 7
           (ChatBox.setInput " Panadol " ChatBox.initial));
    reflexivity.
Defined.

(** X5.  Along every sequence of events of a chat session at most one
    request is in flight, and the loading flag is set exactly while one
    is: the flag never stays set after the request settled. *)
Theorem one_request_in_flight (p : ChatBox.props) (trace : list ChatBox.event) :
  let w := ChatBox.run p ChatBox.start trace in
  (List.length (ChatBox.inflight w) <= 1)%nat
  /\ (ChatBox.loading (ChatBox.ui w) = true <-> ChatBox.inflight w <> []).
Proof.
  cbv zeta.
  assert (ChatBox.chronological (ChatBox.run p ChatBox.start trace)) as Hc.
  { apply run_chronological. left. repeat split. constructor. }
  destruct Hc as [[Hl [Hi _]] | [log [u [q [Hl [Hi _]]]]]]; rewrite Hi, Hl; cbn.
  - split; [lia|]. split; [discriminate | congruence].
  - split; [lia|]. split; [discriminate | reflexivity].
Qed.

(** X6.  The text of a reply is the response's [ai_explanation] if truthy,
    else its [description], else its [explanation], else the fixed ["No
    explanation available"], and the reply carries the response as its
    data.  A response that is [null] or [undefined] gives an error message
    with the not-found text and no data instead.  Either way loading is
    cleared. *)
Theorem reply_text_fallback_order (response : Js.value) (now : Z) (s : ChatBox.state) :
  exists m,
    ChatBox.on_fulfilled response now s
    = {| ChatBox.messages := ChatBox.messages s ++ [m];
         ChatBox.input := ChatBox.input s; ChatBox.loading := false |}
    /\ MessageBubble.type m = MessageBubble.Ai
    /\ MessageBubble.timestamp m = now
    /\ if Js.nullish response
       then MessageBubble.error m = true
            /\ MessageBubble.data m = Js.VUndef
            /\ MessageBubble.content m = Js.VStr ChatBox.not_found
       else MessageBubble.error m = false
            /\ MessageBubble.data m = response
            /\ MessageBubble.content m
               = Api.spec_fallback
                   [Js.get response "ai_explanation"; Js.get response "description";
                    Js.get response "explanation"]
                   ChatBox.no_explanation.
Proof.
  unfold ChatBox.on_fulfilled. destruct (Js.nullish response).
  - eexists. split; [reflexivity|]. repeat split.
  - eexists. split; [reflexivity|]. repeat split. apply js_or_fallback3.
Qed.

Section ChatPage.
Import Js Dom MessageBubble Api ChatBox.

Variable coerced_gt0 : value -> bool.
Variable p : props.

Lemma renders_snoc (s s' : state) (m : message) :
  messages s' = messages s ++ [m] ->
  renders coerced_gt0 s'
  = renders coerced_gt0 s
    && tree_renders (MessageBubble.MessageBubble coerced_gt0 m).
Proof.
  intros Hm. unfold renders. rewrite Hm, forallb_app. cbn.
  by rewrite andb_true_r.
Qed.

Lemma page_run_none (trace : list event) :
  page_run coerced_gt0 p None trace = None.
Proof. induction trace as [|ev rest IH]; [reflexivity | exact IH]. Qed.

(** A session still on the page is the session the events lead to, and
    its log is drawn without a throw. *)
Lemma page_run_some (trace : list event) (w0 w : session) :
  renders coerced_gt0 (ui w0) = true ->
  page_run coerced_gt0 p (Some w0) trace = Some w ->
  w = run p w0 trace /\ renders coerced_gt0 (ui w) = true.
Proof.
  revert w0. induction trace as [|ev rest IH]; intros w0 Hw0 Hrun.
  - injection Hrun as <-. by split.
  - cbn in Hrun.
    destruct (renders coerced_gt0 (ui (step p w0 ev))) eqn:Hstep.
    + apply (IH _ Hstep Hrun).
    + fold (page_run coerced_gt0 p None rest) in Hrun.
      rewrite page_run_none in Hrun. discriminate.
Qed.

End ChatPage.

(** X7.  A failed request leaves the chat usable as long as its error text
    can be drawn.  On a page that is still there, when the request in
    flight is rejected and the text of the error (the backend's message,
    else its suggestion, else the fixed text) is one React accepts as a
    child, the error message is appended, and text typed and submitted
    next is accepted and posted.  When that text is a JSON object the
    render of the error message throws and the page is gone: no event
    has an effect any more. *)
Theorem session_usable_after_failure (coerced_gt0 : Js.value -> bool)
    (p : ChatBox.props) (trace : list ChatBox.event) (w : ChatBox.session)
    (e : Api.failure) (now now' : Z) (text : string) :
  ChatBox.page_run coerced_gt0 p (Some ChatBox.start) trace = Some w ->
  ChatBox.inflight w <> [] ->
  ChatBox.whitespace_only text = false ->
  let shown := Api.spec_fallback [Api.backend_message e; Api.backend_suggestion e]
                 ChatBox.not_found in
  (Js.renderable shown = true ->
   exists w',
     ChatBox.page_run coerced_gt0 p (Some w)
       [ChatBox.Reject 0 e now; ChatBox.Typing text; ChatBox.Submit now']
     = Some w'
     /\ ChatBox.inflight w' = [text]
     /\ ChatBox.loading (ChatBox.ui w') = true
     /\ exists err u,
          ChatBox.messages (ChatBox.ui w')
          = ChatBox.messages (ChatBox.ui w) ++ [err; u]
          /\ MessageBubble.error err = true
          /\ MessageBubble.content err = shown
          /\ MessageBubble.type u = MessageBubble.User
          /\ MessageBubble.content u = Js.VStr text)
  /\ (Js.renderable shown = false ->
      forall later,
        ChatBox.page_run coerced_gt0 p (Some w) (ChatBox.Reject 0 e now :: later)
        = None).
Proof.
  intros Hpage Hflight Htext shown.
  destruct (page_run_some coerced_gt0 p trace ChatBox.start w eq_refl Hpage)
    as [Hw Hrenders].
  assert (ChatBox.chronological w) as Hc.
  { rewrite Hw. apply run_chronological. left. repeat split. constructor. }
  destruct Hc as [[_ [Hi _]] | [log [u0 [q [_ [Hi _]]]]]]; [congruence|].
  set (s1 := ChatBox.on_rejected e now (ChatBox.ui w)).
  assert (ChatBox.step p w (ChatBox.Reject 0 e now)
          = {| ChatBox.ui := s1; ChatBox.inflight := [] |}) as Hstep1.
  { cbn [ChatBox.step]. by rewrite Hi. }
  assert (ChatBox.renders coerced_gt0 s1 = Js.renderable shown) as Hr1.
  { rewrite (renders_snoc coerced_gt0 (ChatBox.ui w) s1 _ eq_refl), Hrenders.
    unfold MessageBubble.MessageBubble, Dom.tree_renders. cbn.
    rewrite js_or_fallback2. fold shown. by rewrite andb_true_r. }
  assert (ChatBox.page_step coerced_gt0 p (Some w) (ChatBox.Reject 0 e now)
          = if Js.renderable shown
            then Some {| ChatBox.ui := s1; ChatBox.inflight := [] |} else None)
    as Hpage1.
  { unfold ChatBox.page_step. rewrite Hstep1. cbn [ChatBox.ui]. by rewrite Hr1. }
  split.
  - intros Hshown. rewrite Hshown in Hpage1, Hr1.
    set (w1 := {| ChatBox.ui := s1; ChatBox.inflight := [] |}) in *.
    set (w2 := ChatBox.step p w1 (ChatBox.Typing text)).
    assert (ChatBox.page_step coerced_gt0 p (Some w1) (ChatBox.Typing text) = Some w2)
      as Hpage2.
    { assert (ChatBox.renders coerced_gt0 (ChatBox.ui w2) = true) as Hr2
        by exact Hr1.
      unfold ChatBox.page_step. fold w2. by rewrite Hr2. }
    destruct (handleSubmit_accepted p now' (ChatBox.ui w2) Htext eq_refl)
      as [u [effs [Hsub [Hq [Hu Hcont]]]]].
    set (w3 := ChatBox.step p w2 (ChatBox.Submit now')).
    assert (w3 = {| ChatBox.ui :=
                      {| ChatBox.messages := ChatBox.messages s1 ++ [u];
                         ChatBox.input := ""; ChatBox.loading := true |};
                    ChatBox.inflight := [text] |}) as Hw3.
    { subst w3. cbn [ChatBox.step]. rewrite Hsub. cbn [fst snd]. by rewrite Hq. }
    assert (ChatBox.page_step coerced_gt0 p (Some w2) (ChatBox.Submit now') = Some w3)
      as Hpage3.
    { assert (ChatBox.renders coerced_gt0 (ChatBox.ui w3) = true) as Hr3.
      { rewrite Hw3. cbn [ChatBox.ui].
        rewrite (renders_snoc coerced_gt0 s1
                   {| ChatBox.messages := ChatBox.messages s1 ++ [u];
                      ChatBox.input := ""; ChatBox.loading := true |} u eq_refl), Hr1.
        unfold MessageBubble.MessageBubble, Dom.tree_renders. rewrite Hu. cbn.
        by rewrite Hcont. }
      unfold ChatBox.page_step. fold w3. by rewrite Hr3. }
    exists w3. split.
    { unfold ChatBox.page_run. cbn [fold_left]. by rewrite Hpage1, Hpage2, Hpage3. }
    rewrite Hw3. cbn [ChatBox.inflight ChatBox.ui ChatBox.loading ChatBox.messages].
    split; [reflexivity|]. split; [reflexivity|].
    eexists _, u. split; [|split; [|split; [|split]]].
    + subst s1. cbn. rewrite <- app_assoc. reflexivity.
    + reflexivity.
    + cbn. apply js_or_fallback2.
    + exact Hu.
    + exact Hcont.
  - intros Hshown later. unfold ChatBox.page_run. cbn [fold_left].
    rewrite Hpage1, Hshown. apply page_run_none.
Qed.

Lemma session_usable_after_failure_witness :
  let p := {| ChatBox.onFirstMessage := true; ChatBox.resetTrigger := 0 |} in
  let sent := {| ChatBox.ui :=
                   fst (ChatBox.handleSubmit p 1 (ChatBox.setInput "zzz" ChatBox.initial));
                 ChatBox.inflight := ["zzz"] |} in
  let broken := {| Api.err_message := Js.VStr "Request failed with status code 500";
                   Api.err_response :=
                     Js.VObj [("data",
                               Js.VObj [("message",
                                         Js.VObj [("code", Js.VNum 500)])])] |} in
  let offline := {| Api.err_message := Js.VStr "Network Error";
                    Api.err_response := Js.VUndef |} in
  ChatBox.page_run (fun _ => false) p (Some sent)
    [ChatBox.Reject 0 broken 2; ChatBox.Typing "Panadol"; ChatBox.Submit 3]
  = None
  /\ exists w',
       ChatBox.page_run (fun _ => false) p (Some sent)
         [ChatBox.Reject 0 offline 2; ChatBox.Typing "Panadol"; ChatBox.Submit 3]
       = Some w'
       /\ ChatBox.inflight w' = ["Panadol"].
Proof.
  cbv zeta. split; [|
    match goal with
    | |- exists w', ChatBox.page_run ?g ?p (Some ?w) (ChatBox.Reject 0 ?e ?t :: _) = _ /\ _ =>
        destruct (session_usable_after_failure g p
                    [ChatBox.Typing "zzz"; ChatBox.Submit 1] w e t 3 "Panadol")
          as [Hgood _];
        [reflexivity | discriminate | reflexivity |];
        destruct (Hgood eq_refl) as [w' [Hrun [Hflight _]]];
        exists w'; split; [exact Hrun | exact Hflight]
    end].
  match goal with
  | |- ChatBox.page_run ?g ?p (Some ?w) (ChatBox.Reject 0 ?e ?t :: _) = None =>
      destruct (session_usable_after_failure g p
                  [ChatBox.Typing "zzz"; ChatBox.Submit 1] w e t 3 "Panadol")
        as [_ Hgone]
  end.
  - reflexivity.
  - discriminate.
  - reflexivity.
  - apply Hgone. reflexivity.
Defined.

(** ** The image upload view, continued *)

Ltac split_view :=
  rewrite ?flat_map_app, ?flat_map_guardb;
  repeat (rewrite flat_map_guard by reflexivity);
  rewrite ?flat_map_app, ?flat_map_guardb;
  repeat (rewrite flat_map_guard by reflexivity);
  rewrite ?flat_map_guardb;
  cbn [flat_map app]; rewrite ?if_same; cbn [app]; rewrite ?app_nil_r.

Section Uploads.
Import Js Dom Api.

Lemma clickable_buttons (label : string) (tree : list node) :
  clickable label tree
  = existsb (fun b => String.eqb (fst b) label && negb (snd b)) (buttons tree).
Proof.
  unfold clickable, buttons.
  induction tree as [|n rest IH]; [reflexivity|].
  cbn [existsb flat_map]. rewrite existsb_app, IH.
  destruct n; cbn; rewrite ?orb_false_r; reflexivity.
Qed.

Lemma card_buttons (heading : string) (r : value) :
  buttons (ResultCard.card heading r) = [].
Proof.
  unfold buttons, ResultCard.card. rewrite flat_map_guard by reflexivity.
  split_view. reflexivity.
Qed.

Lemma upload_view_buttons (s : ImageUploader.state) :
  buttons (ImageUploader.view s)
  = if truthy (ImageUploader.preview s)
    then [(if ImageUploader.loading s then "Processing..." else "Analyze Image",
           ImageUploader.loading s)]
    else [].
Proof.
  unfold ImageUploader.view.
  change (buttons ?t) with (flat_map (fun n => match n with
                                               | Button l d => [(l, d)]
                                               | _ => []
                                               end) t).
  rewrite !flat_map_app, !flat_map_guard by reflexivity.
  fold (buttons (ResultCard.card "Image Analysis Result" (ImageUploader.result s))).
  rewrite card_buttons. cbn [flat_map app]. rewrite if_same, !app_nil_r.
  reflexivity.
Qed.

(** The analyze button can be clicked exactly when a preview is shown and
    nothing is loading. *)
Lemma analyze_clickable (s : ImageUploader.state) :
  clickable "Analyze Image" (ImageUploader.view s)
  = truthy (ImageUploader.preview s) && negb (ImageUploader.loading s).
Proof.
  rewrite clickable_buttons, upload_view_buttons.
  destruct (truthy _), (ImageUploader.loading s); reflexivity.
Qed.

Lemma spec_fallback_truthy (candidates : list value) (fixed : string) :
  fixed <> EmptyString -> truthy (spec_fallback candidates fixed) = true.
Proof.
  intros Hfixed. induction candidates as [|c rest IH]; cbn.
  - by destruct fixed.
  - by destruct (truthy c) eqn:Hc.
Qed.

Lemma errorMessage_truthy (fixed : string) (e : failure) :
  fixed <> EmptyString -> truthy (errorMessage fixed e) = true.
Proof.
  intros Hfixed. unfold errorMessage. rewrite js_or_fallback3.
  by apply spec_fallback_truthy.
Qed.

(** What holds of the upload view along every sequence of events. *)
Lemma upload_step_invariant (w : ImageUploader.world) (ev : ImageUploader.event) :
  (ImageUploader.loading (ImageUploader.ui w) = false /\ ImageUploader.uploads w = []
   \/ ImageUploader.loading (ImageUploader.ui w) = true
      /\ exists f, ImageUploader.uploads w = [f]) ->
  (ImageUploader.selectedFile (ImageUploader.ui w) = None ->
   ImageUploader.ui w = ImageUploader.initial) ->
  let w' := ImageUploader.step w ev in
  (ImageUploader.loading (ImageUploader.ui w') = false /\ ImageUploader.uploads w' = []
   \/ ImageUploader.loading (ImageUploader.ui w') = true
      /\ exists f, ImageUploader.uploads w' = [f])
  /\ (ImageUploader.selectedFile (ImageUploader.ui w') = None ->
      ImageUploader.ui w' = ImageUploader.initial).
Proof.
  intros Hflight Hnone w'. subst w'.
  destruct ev as [chosen url | | i response | i e]; cbn [ImageUploader.step].
  - destruct chosen as [f|]; cbn; [|by split]. split; [assumption | discriminate].
  - rewrite analyze_clickable.
    destruct (truthy _ && negb _) eqn:Hclick; [|by split].
    apply andb_prop in Hclick as [_ Hl%negb_true_iff].
    destruct Hflight as [[_ Hup] | [Hl' _]]; [|congruence].
    unfold ImageUploader.handleUpload.
    destruct (ImageUploader.selectedFile (ImageUploader.ui w)) as [f|] eqn:Hsel;
      cbn; rewrite Hup; cbn.
    + split; [right; eauto | intros H; first [discriminate H | congruence]].
    + split; [by left | intros _; by apply Hnone].
  - destruct (ImageUploader.uploads w !! i) as [f|] eqn:Hi; [|by split].
    destruct Hflight as [[_ Hup] | [Hl [f' Hup]]]; rewrite Hup in Hi;
      [discriminate|].
    destruct i; [|discriminate]. cbn. rewrite Hup. cbn.
    split; [by left|]. intros Hsel. apply Hnone in Hsel. rewrite Hsel in Hl.
    discriminate.
  - destruct (ImageUploader.uploads w !! i) as [f|] eqn:Hi; [|by split].
    destruct Hflight as [[_ Hup] | [Hl [f' Hup]]]; rewrite Hup in Hi;
      [discriminate|].
    destruct i; [|discriminate]. cbn. rewrite Hup. cbn.
    split; [by left|]. intros Hsel. apply Hnone in Hsel. rewrite Hsel in Hl.
    discriminate.
Qed.

End Uploads.

(** X8.  Along every sequence of events of the image upload view at most
    one upload is in flight and the loading flag is set exactly while one
    is; and until a file has been chosen the view is the bare file input:
    no preview, no analyze button, no error, no result. *)
Theorem uploads_are_serialised (trace : list ImageUploader.event) :
  let w := ImageUploader.run ImageUploader.start trace in
  (List.length (ImageUploader.uploads w) <= 1)%nat
  /\ (ImageUploader.loading (ImageUploader.ui w) = true
      <-> ImageUploader.uploads w <> [])
  /\ (ImageUploader.selectedFile (ImageUploader.ui w) = None ->
      ImageUploader.view (ImageUploader.ui w)
      = [Dom.Heading "Upload Medicine Image"; Dom.FileInput]).
Proof.
  cbv zeta.
  assert (forall w,
            (ImageUploader.loading (ImageUploader.ui w) = false
             /\ ImageUploader.uploads w = []
             \/ ImageUploader.loading (ImageUploader.ui w) = true
                /\ exists f, ImageUploader.uploads w = [f]) ->
            (ImageUploader.selectedFile (ImageUploader.ui w) = None ->
             ImageUploader.ui w = ImageUploader.initial) ->
            let w' := ImageUploader.run w trace in
            (ImageUploader.loading (ImageUploader.ui w') = false
             /\ ImageUploader.uploads w' = []
             \/ ImageUploader.loading (ImageUploader.ui w') = true
                /\ exists f, ImageUploader.uploads w' = [f])
            /\ (ImageUploader.selectedFile (ImageUploader.ui w') = None ->
                ImageUploader.ui w' = ImageUploader.initial)) as Hrun.
  { induction trace as [|ev rest IH]; intros w H1 H2; [by split|].
    destruct (upload_step_invariant w ev H1 H2) as [H1' H2'].
    apply (IH _ H1' H2'). }
  destruct (Hrun ImageUploader.start) as [Hflight Hnone]; [by left | done |].
  split; [|split].
  - destruct Hflight as [[_ ->] | [_ [f ->]]]; cbn; lia.
  - destruct Hflight as [[-> ->] | [-> [f ->]]]; split; try done.
  - intros Hsel. by rewrite (Hnone Hsel).
Qed.

Lemma uploads_are_serialised_witness :
  ImageUploader.view
    (ImageUploader.ui
       (ImageUploader.run ImageUploader.start
          [ImageUploader.ClickAnalyze; ImageUploader.SelectFile None "blob:none"]))
  = [Dom.Heading "Upload Medicine Image"; Dom.FileInput].
Proof.
  apply (uploads_are_serialised
           [ImageUploader.ClickAnalyze; ImageUploader.SelectFile None "blob:none"]).
  reflexivity.
Defined.

(** ** The camera view, continued *)

Section CameraFurther.
Import Js Dom Api CameraCapture.

Lemma camera_view_buttons (s : state) :
  buttons (view s)
  = (if negb (streaming s) && negb (truthy (captured s))
     then [("Start Camera", false)] else [])
    ++ (if streaming s then [("Capture Photo", false); ("Stop", false)] else [])
    ++ (if truthy (captured s)
        then [(if loading s then "Analyzing..." else "Analyze", loading s);
              ("Retake", false)]
        else []).
Proof.
  unfold view.
  change (buttons ?t) with (flat_map (fun n => match n with
                                               | Button l d => [(l, d)]
                                               | _ => []
                                               end) t).
  rewrite !flat_map_app, !flat_map_guardb, !flat_map_guard by reflexivity.
  fold (buttons (ResultCard.card "Camera Scan Result" (result s))).
  rewrite card_buttons. cbn [flat_map app]. rewrite !if_same, !app_nil_r.
  reflexivity.
Qed.

(** Each button of the camera view can be clicked exactly in the block of
    the view it belongs to. *)
Lemma camera_clickable (s : state) :
  clickable "Start Camera" (view s) = negb (streaming s) && negb (truthy (captured s))
  /\ clickable "Stop" (view s) = streaming s
  /\ clickable "Capture Photo" (view s) = streaming s
  /\ clickable "Analyze" (view s) = truthy (captured s) && negb (loading s)
  /\ clickable "Retake" (view s) = truthy (captured s).
Proof.
  rewrite !clickable_buttons, camera_view_buttons.
  destruct (streaming s), (truthy (captured s)), (loading s); repeat split.
Qed.

Lemma stop_twice (stream : list track) :
  List.map stop (List.map stop stream) = List.map stop stream.
Proof. induction stream as [|t rest IH]; cbn; [reflexivity|]. by rewrite IH. Qed.

Lemma stopCamera_none (s : state) : streamRef s = None -> stopCamera s = s.
Proof. intros H. unfold stopCamera. by rewrite H. Qed.

Lemma step_keeps_no_stream (w : world) (ev : event) :
  is_granted ev = false -> streamRef (ui w) = None ->
  streamRef (ui (step w ev)) = None.
Proof.
  intros Hev Href.
  destruct ev; try discriminate; unfold step;
    try (destruct (clickable _ _); [|assumption]);
    try (destruct (camera_requests w); [assumption|]);
    try (destruct (analyses w); [assumption|]);
    cbn [ui]; try assumption.
  - by rewrite stopCamera_none.
  - unfold captureImage. by rewrite stopCamera_none.
  - unfold analyzeCapture. by destruct (negb _).
Qed.

Lemma step_analyses (w : world) (ev : event) :
  (loading (ui w) = false /\ analyses w = O
   \/ loading (ui w) = true /\ analyses w = 1%nat) ->
  loading (ui (step w ev)) = false /\ analyses (step w ev) = O
  \/ loading (ui (step w ev)) = true /\ analyses (step w ev) = 1%nat.
Proof.
  intros Hinv.
  assert (forall s, loading (stopCamera s) = loading s) as Hstop
    by (intros s; unfold stopCamera; by destruct (streamRef s)).
  destruct ev; unfold step; cbv zeta.
  - destruct (clickable _ _); [|exact Hinv]. exact Hinv.
  - destruct (clickable _ _); [|exact Hinv]. cbn [ui analyses].
    by rewrite Hstop.
  - destruct (clickable _ _); [|exact Hinv]. cbn [ui analyses].
    unfold captureImage. by rewrite Hstop.
  - destruct (camera_clickable (ui w)) as (_ & _ & _ & -> & _).
    destruct (truthy (captured (ui w)) && negb (loading (ui w))) eqn:Hclick;
      [|exact Hinv].
    apply andb_prop in Hclick as [Hcap Hl%negb_true_iff].
    destruct Hinv as [[_ Hzero] | [Hl' _]]; [|congruence].
    unfold analyzeCapture. rewrite Hcap, Hzero. cbn. by right.
  - destruct (clickable _ _); [|exact Hinv]. exact Hinv.
  - destruct (camera_requests w); [exact Hinv|]. cbn [ui analyses].
    unfold camera_granted. by destruct (streaming (ui w)).
  - destruct (camera_requests w); [exact Hinv|]. exact Hinv.
  - destruct (analyses w) as [|n] eqn:Hn; [by rewrite Hn|].
    destruct Hinv as [[_ Hzero] | [_ Hone]]; [discriminate|].
    injection Hone as ->. cbn. by left.
  - destruct (analyses w) as [|n] eqn:Hn; [by rewrite Hn|].
    destruct Hinv as [[_ Hzero] | [_ Hone]]; [discriminate|].
    injection Hone as ->. cbn. by left.
Qed.

Lemma run_keeps_no_stream (trace : list event) (w : world) :
  forallb (fun ev => negb (is_granted ev)) trace = true ->
  streamRef (ui w) = None ->
  streamRef (ui (run w trace)) = None.
Proof.
  revert w. induction trace as [|ev rest IH]; intros w Htrace Href; [assumption|].
  cbn in Htrace. apply andb_prop in Htrace as [Hev%negb_true_iff Hrest].
  apply (IH _ Hrest). by apply step_keeps_no_stream.
Qed.

End CameraFurther.

(** X9.  Pressing analyze does not clear the result on display.  When the
    analysis then fails, the image view, and likewise the camera view,
    shows the error in its error box together with the card of the
    earlier result. *)
Theorem failed_analysis_keeps_old_result (e : Api.failure) :
  (forall (s : ImageUploader.state) f,
      ImageUploader.selectedFile s = Some f ->
      let s' := ImageUploader.upload_rejected e (fst (ImageUploader.handleUpload s)) in
      ImageUploader.result s' = ImageUploader.result s
      /\ Dom.error_boxes (ImageUploader.view s')
         = [Api.errorMessage ImageUploader.upload_failed e]
      /\ exists above,
           ImageUploader.view s'
           = above ++ ResultCard.card "Image Analysis Result" (ImageUploader.result s))
  /\ (forall s : CameraCapture.state,
        Js.truthy (CameraCapture.captured s) = true ->
        let s' := CameraCapture.analysis_rejected e
                    (fst (CameraCapture.analyzeCapture s)) in
        CameraCapture.result s' = CameraCapture.result s
        /\ Dom.error_boxes (CameraCapture.view s')
           = [Api.errorMessage CameraCapture.analysis_failed e]
        /\ exists above,
             CameraCapture.view s'
             = above ++ ResultCard.card "Camera Scan Result" (CameraCapture.result s)).
Proof.
  split.
  - intros s f Hsel s'. subst s'. unfold ImageUploader.handleUpload.
    rewrite Hsel. cbn [fst].
    split; [reflexivity|]. split.
    + rewrite upload_view_error_boxes.
      cbn [ImageUploader.upload_rejected ImageUploader.error].
      by rewrite errorMessage_truthy.
    + unfold ImageUploader.view.
      cbn [ImageUploader.upload_rejected ImageUploader.result].
      eexists. rewrite !app_assoc. reflexivity.
  - intros s Hcap s'. subst s'. unfold CameraCapture.analyzeCapture.
    rewrite Hcap. cbn [negb fst].
    split; [reflexivity|]. split.
    + rewrite camera_view_error_boxes.
      cbn [CameraCapture.analysis_rejected CameraCapture.error].
      by rewrite errorMessage_truthy.
    + unfold CameraCapture.view.
      cbn [CameraCapture.analysis_rejected CameraCapture.result].
      eexists. rewrite !app_assoc. reflexivity.
Qed.

Lemma failed_analysis_keeps_old_result_witness :
  let e := {| Api.err_message := Js.VStr "Network Error";
              Api.err_response := Js.VUndef |} in
  let s := ImageUploader.upload_fulfilled
             (Js.VObj [("medicine_name", Js.VStr "Panadol")])
             (ImageUploader.handleFileSelect
                (Some {| ImageUploader.file_name := "a.jpg" |}) "blob:a"
                ImageUploader.initial) in
  Dom.error_boxes
    (ImageUploader.view
       (ImageUploader.upload_rejected e (fst (ImageUploader.handleUpload s))))
  = [Js.VStr "Network Error"]
  /\ ImageUploader.result
       (ImageUploader.upload_rejected e (fst (ImageUploader.handleUpload s)))
     = Js.VObj [("medicine_name", Js.VStr "Panadol")].
Proof.
  cbv zeta.
  match goal with
  | |- context [ImageUploader.upload_rejected ?e (fst (ImageUploader.handleUpload ?s))] =>
      destruct (failed_analysis_keeps_old_result e) as [Himage _];
      destruct (Himage s {| ImageUploader.file_name := "a.jpg" |} eq_refl)
        as (Hres & Herr & _)
  end.
  split; [exact Herr | exact Hres].
Defined.

(** X10.  Until a stream has been granted the component holds none, and
    stop does nothing at all: pressed while the camera is being requested
    it leaves the view streaming; capture pressed there stores the frame
    it is given but neither ends the streaming view nor has a stream to
    stop. *)
Theorem stop_does_nothing_before_grant (trace : list CameraCapture.event) :
  forallb (fun ev => negb (CameraCapture.is_granted ev)) trace = true ->
  let w := CameraCapture.run CameraCapture.start trace in
  CameraCapture.streamRef (CameraCapture.ui w) = None
  /\ CameraCapture.step w CameraCapture.ClickStop = w
  /\ forall imageData,
       CameraCapture.streaming (CameraCapture.ui w) = true ->
       CameraCapture.ui (CameraCapture.step w (CameraCapture.ClickCapture imageData))
       = {| CameraCapture.streaming := true;
            CameraCapture.captured := Js.VStr imageData;
            CameraCapture.result := CameraCapture.result (CameraCapture.ui w);
            CameraCapture.loading := CameraCapture.loading (CameraCapture.ui w);
            CameraCapture.error := CameraCapture.error (CameraCapture.ui w);
            CameraCapture.debugInfo := CameraCapture.debugInfo (CameraCapture.ui w);
            CameraCapture.streamRef := None |}.
Proof.
  intros Htrace w.
  assert (CameraCapture.streamRef (CameraCapture.ui w) = None) as Href
    by (by apply run_keeps_no_stream).
  split; [assumption|]. split.
  - unfold CameraCapture.step. cbv zeta.
    destruct (Dom.clickable _ _); [|reflexivity].
    rewrite stopCamera_none by assumption. by destruct w.
  - intros imageData Hstr. unfold CameraCapture.step. cbv zeta.
    destruct (camera_clickable (CameraCapture.ui w)) as (_ & _ & -> & _).
    rewrite Hstr. cbn [CameraCapture.ui]. unfold CameraCapture.captureImage.
    rewrite stopCamera_none by assumption. by rewrite Hstr, Href.
Qed.

Lemma stop_does_nothing_before_grant_witness :
  let w := CameraCapture.run CameraCapture.start [CameraCapture.ClickStart] in
  CameraCapture.step w CameraCapture.ClickStop = w
  /\ CameraCapture.captured
       (CameraCapture.ui (CameraCapture.step w (CameraCapture.ClickCapture "data:,")))
     = Js.VStr "data:,"
  /\ CameraCapture.streaming
       (CameraCapture.ui (CameraCapture.step w (CameraCapture.ClickCapture "data:,")))
     = true.
Proof.
  cbv zeta.
  destruct (stop_does_nothing_before_grant [CameraCapture.ClickStart] eq_refl)
    as (_ & Hstop & Hcapture).
  split; [exact Hstop|].
  rewrite (Hcapture "data:," eq_refl). split; reflexivity.
Defined.

(** X11.  A stream granted while the view is not streaming (stop was
    pressed, or another request failed, in the meantime) is stored but not
    stopped: the view reports that the video element was not found and
    shows the start button, while every track that was live stays live. *)
Theorem stream_granted_late_stays_live (stream : list CameraCapture.track)
    (s : CameraCapture.state) :
  CameraCapture.streaming s = false ->
  let s' := CameraCapture.camera_granted stream s in
  CameraCapture.streaming s' = false
  /\ CameraCapture.streamRef s' = Some stream
  /\ CameraCapture.debugInfo s' = "ERROR: Video element not found!"
  /\ (Js.truthy (CameraCapture.captured s) = false ->
      Dom.clickable "Start Camera" (CameraCapture.view s') = true)
  /\ (Exists (fun t => CameraCapture.live t = true) stream ->
      ~ CameraCapture.released s').
Proof.
  intros Hs s'. subst s'. unfold CameraCapture.camera_granted. rewrite Hs.
  split; [reflexivity|]. split; [reflexivity|]. split; [reflexivity|]. split.
  - intros Hcap. destruct (camera_clickable
      {| CameraCapture.streaming := false;
         CameraCapture.captured := CameraCapture.captured s;
         CameraCapture.result := CameraCapture.result s;
         CameraCapture.loading := CameraCapture.loading s;
         CameraCapture.error := CameraCapture.error s;
         CameraCapture.debugInfo := "ERROR: Video element not found!";
         CameraCapture.streamRef := Some stream |}) as [-> _].
    cbn. by rewrite Hcap.
  - intros Hlive Hrel. specialize (Hrel stream eq_refl).
    apply Exists_exists in Hlive as [t [Hin Ht]].
    rewrite Forall_forall in Hrel. specialize (Hrel t Hin). congruence.
Qed.

Lemma stream_granted_late_stays_live_witness :
  let live_track := {| CameraCapture.kind := "video"; CameraCapture.live := true |} in
  let w := CameraCapture.run CameraCapture.start
             [CameraCapture.ClickStart; CameraCapture.Granted [live_track];
              CameraCapture.ClickCapture "data:image/jpeg;base64,AA";
              CameraCapture.ClickRetake; CameraCapture.ClickStop] in
  CameraCapture.idle
    (CameraCapture.ui (CameraCapture.step w (CameraCapture.Granted [live_track])))
  /\ ~ CameraCapture.released
        (CameraCapture.ui (CameraCapture.step w (CameraCapture.Granted [live_track]))).
Proof.
  cbv zeta. split; [split; reflexivity|].
  match goal with
  | |- ~ CameraCapture.released
         (CameraCapture.ui (CameraCapture.step ?w (CameraCapture.Granted ?st))) =>
      apply (stream_granted_late_stays_live st (CameraCapture.ui w) eq_refl)
  end.
  constructor. reflexivity.
Defined.

(** X12.  Stopping is idempotent: stopping a stopped camera changes
    nothing, and stopping right after a capture changes nothing.  After a
    stop, whatever the state it is called in, every track of the stream
    the component holds is stopped. *)
Theorem stop_is_idempotent (s : CameraCapture.state) :
  CameraCapture.stopCamera (CameraCapture.stopCamera s) = CameraCapture.stopCamera s
  /\ (forall imageData,
        CameraCapture.stopCamera (CameraCapture.captureImage imageData s)
        = CameraCapture.captureImage imageData s)
  /\ CameraCapture.released (CameraCapture.stopCamera s).
Proof.
  assert (forall s0, CameraCapture.stopCamera (CameraCapture.stopCamera s0)
                     = CameraCapture.stopCamera s0) as Hidem.
  { intros s0. unfold CameraCapture.stopCamera.
    destruct (CameraCapture.streamRef s0) as [stream|] eqn:Href; cbn.
    - by rewrite stop_twice.
    - by rewrite Href. }
  split; [apply Hidem|]. split.
  - intros imageData. apply Hidem.
  - destruct (stopCamera_released s) as [H | H]; [assumption|].
    rewrite stopCamera_none by assumption. intros stream Hs. congruence.
Qed.

(** X13.  Along every sequence of events of the camera view at most one
    analysis is in flight and the loading flag is set exactly while one
    is; retaking or restarting the camera does not clear the flag, so a
    new frame cannot be analysed before the earlier analysis has settled. *)
Theorem analyses_are_serialised (trace : list CameraCapture.event) :
  let w := CameraCapture.run CameraCapture.start trace in
  (CameraCapture.analyses w <= 1)%nat
  /\ (CameraCapture.loading (CameraCapture.ui w) = true
      <-> CameraCapture.analyses w = 1%nat)
  /\ (CameraCapture.loading (CameraCapture.ui w) = true ->
      CameraCapture.step w CameraCapture.ClickAnalyze = w).
Proof.
  cbv zeta.
  assert (forall w,
            (CameraCapture.loading (CameraCapture.ui w) = false
             /\ CameraCapture.analyses w = O
             \/ CameraCapture.loading (CameraCapture.ui w) = true
                /\ CameraCapture.analyses w = 1%nat) ->
            CameraCapture.loading (CameraCapture.ui (CameraCapture.run w trace)) = false
            /\ CameraCapture.analyses (CameraCapture.run w trace) = O
            \/ CameraCapture.loading (CameraCapture.ui (CameraCapture.run w trace)) = true
               /\ CameraCapture.analyses (CameraCapture.run w trace) = 1%nat) as Hrun.
  { induction trace as [|ev rest IH]; intros w Hw; [assumption|].
    apply IH, step_analyses, Hw. }
  destruct (Hrun CameraCapture.start) as [[Hl Hn] | [Hl Hn]]; [by left | |];
    rewrite Hl, Hn; (split; [lia|]); (split; [by split|]); intros H;
    try discriminate H.
  unfold CameraCapture.step. cbv zeta.
  destruct (camera_clickable
              (CameraCapture.ui (CameraCapture.run CameraCapture.start trace)))
    as (_ & _ & _ & -> & _).
  rewrite Hl. by rewrite andb_false_r.
Qed.

Lemma analyses_are_serialised_witness :
  let w := CameraCapture.run CameraCapture.start
             [CameraCapture.ClickStart;
              CameraCapture.Granted
                [{| CameraCapture.kind := "video"; CameraCapture.live := true |}];
              CameraCapture.ClickCapture "data:image/jpeg;base64,AA";
              CameraCapture.ClickAnalyze; CameraCapture.ClickRetake;
              CameraCapture.Granted
                [{| CameraCapture.kind := "video"; CameraCapture.live := true |}];
              CameraCapture.ClickCapture "data:image/jpeg;base64,BB"] in
  CameraCapture.step w CameraCapture.ClickAnalyze = w.
Proof.
  cbv zeta.
  match goal with
  | |- CameraCapture.step (CameraCapture.run _ ?tr) _ = _ =>
      apply (analyses_are_serialised tr)
  end.
  reflexivity.
Defined.

(** ** Suggestions, continued *)

Section SuggestionsFurther.
Import AutoComplete.

Lemma toLowerCase_app (a b : string) :
  toLowerCase (a +:+ b) = toLowerCase a +:+ toLowerCase b.
Proof.
  induction a as [|c rest IH]; [reflexivity|].
  rewrite append_cons. cbn [toLowerCase]. by rewrite IH, append_cons.
Qed.

Lemma toLowerCase_length (s : string) :
  String.length (toLowerCase s) = String.length s.
Proof. induction s as [|c rest IH]; cbn; by rewrite ?IH. Qed.

Lemma startsWith_append (t after : string) : startsWith (t +:+ after) t = true.
Proof.
  induction t as [|c rest IH]; [by destruct after|].
  rewrite append_cons. cbn [startsWith]. by rewrite Ascii.eqb_refl, IH.
Qed.

Lemma includes_unfold (s t : string) :
  includes s t
  = startsWith s t
    || match s with EmptyString => false | String _ s' => includes s' t end.
Proof. by destruct s. Qed.

Lemma includes_complete (before t after : string) :
  includes (before +:+ t +:+ after) t = true.
Proof.
  induction before as [|c rest IH].
  - change (EmptyString +:+ t +:+ after) with (t +:+ after).
    rewrite includes_unfold, startsWith_append. reflexivity.
  - rewrite append_cons, includes_unfold, IH. apply orb_true_r.
Qed.

Lemma contains_includes (m x : string) :
  contains_ignoring_case m x ->
  includes (toLowerCase m) (toLowerCase x) = true.
Proof.
  intros [before [stretch [after [-> Hs]]]].
  rewrite !toLowerCase_app, Hs. apply includes_complete.
Qed.

Lemma filter_sublist {A} (f : A -> bool) (l : list A) : sublist (List.filter f l) l.
Proof.
  induction l as [|a rest IH]; cbn; [constructor|].
  destruct (f a); by constructor.
Qed.

Lemma includes_contains (m x : string) :
  includes (toLowerCase m) (toLowerCase x) = true ->
  contains_ignoring_case m x.
Proof.
  intros Hinc.
  apply includes_occurs in Hinc as [before [after Hm]].
  apply toLowerCase_split in Hm as [m1 [rest [-> [_ Hrest]]]].
  apply toLowerCase_split in Hrest as [stretch [m3 [-> [Hs _]]]].
  by exists m1, stretch, m3.
Qed.

(** Filtering with a test and keeping [limit] names picks the first
    [limit] names that pass the test. *)
Lemma take_filter_first (P : string -> Prop) (f : string -> bool)
    (limit : nat) (directory : list string) :
  (forall m, f m = true <-> P m) ->
  first_matching P limit directory (take limit (List.filter f directory)).
Proof.
  intros Hf. revert limit.
  induction directory as [|m rest IH]; intros limit.
  - cbn. rewrite take_nil. constructor.
  - destruct limit as [|limit]; [constructor|]. cbn [List.filter].
    destruct (f m) eqn:Hm.
    + cbn [take]. constructor; [by apply Hf | apply IH].
    + apply first_skip; [|apply IH]. rewrite <- Hf. congruence.
Qed.

End SuggestionsFurther.

(** X14.  For a non-empty query the suggestions are the first five names
    of the directory in which the query occurs up to the case of letters,
    in directory order, or all such names when there are fewer than five.
    So they form a subsequence of the directory, and when fewer than five
    are shown every such name of the directory is among them. *)
Theorem suggestions_are_first_matches (x : string) (directory : list string) :
  (x <> EmptyString ->
   AutoComplete.first_matching (fun m => AutoComplete.contains_ignoring_case m x)
     5 directory (AutoComplete.suggest x directory))
  /\ sublist (AutoComplete.suggest x directory) directory
  /\ (forall m,
        x <> EmptyString ->
        In m directory ->
        AutoComplete.contains_ignoring_case m x ->
        (List.length (AutoComplete.suggest x directory) < 5)%nat ->
        In m (AutoComplete.suggest x directory)).
Proof.
  unfold AutoComplete.suggest, AutoComplete.update.
  destruct x as [|c rest]; cbn [String.length Nat.ltb Nat.leb
                                AutoComplete.suggestions AutoComplete.allMedicines].
  - split; [done|]. split; [apply sublist_nil_l | intros m Hx; by destruct Hx].
  - unfold AutoComplete.filtered. split; [|split].
    + intros _. apply take_filter_first. intros m. split.
      * apply includes_contains.
      * apply contains_includes.
    + etrans; [apply sublist_take | apply filter_sublist].
    + intros m _ Hdir Hcontains Hshort.
      rewrite length_take in Hshort.
      rewrite take_ge by lia.
      apply filter_In. split; [assumption|]. by apply contains_includes.
Qed.

Lemma suggestions_are_first_matches_witness :
  AutoComplete.first_matching (fun m => AutoComplete.contains_ignoring_case m "PAN")
    5 ["Brufen"; "Panadol"; "Japan Plus"]
    (AutoComplete.suggest "PAN" ["Brufen"; "Panadol"; "Japan Plus"])
  /\ In "Japan Plus" (AutoComplete.suggest "PAN" ["Brufen"; "Panadol"; "Japan Plus"]).
Proof.
  destruct (suggestions_are_first_matches "PAN" ["Brufen"; "Panadol"; "Japan Plus"])
    as (Hfirst & _ & Hall).
  split.
  - apply Hfirst. discriminate.
  - apply Hall.
    + discriminate.
    + cbn. tauto.
    + exists "Ja", "pan", " Plus". split; reflexivity.
    + vm_compute. lia.
Defined.

(** X15.  Only the letters of the query matter, not their case: two
    queries with the same lower-case form get the same suggestions. *)
Theorem suggestions_ignore_query_case (x y : string) (directory : list string) :
  AutoComplete.toLowerCase x = AutoComplete.toLowerCase y ->
  AutoComplete.suggest x directory = AutoComplete.suggest y directory.
Proof.
  intros Hxy.
  assert (String.length x = String.length y) as Hlen
    by (rewrite <- (toLowerCase_length x), <- (toLowerCase_length y); by rewrite Hxy).
  unfold AutoComplete.suggest, AutoComplete.update, AutoComplete.filtered.
  by rewrite Hlen, Hxy.
Qed.

Lemma suggestions_ignore_query_case_witness :
  AutoComplete.suggest "PaN" ["Brufen"; "Panadol"]
  = AutoComplete.suggest "pan" ["Brufen"; "Panadol"].
Proof.
  apply (suggestions_ignore_query_case "PaN" "pan" ["Brufen"; "Panadol"]).
  reflexivity.
Defined.

(** ** The voice control, continued *)

(** X16.  Once the voice control has found speech recognition missing it
    stays hidden whatever happens next; and while it is listening a press
    does nothing, so a second recognition cannot be started before the
    first has ended. *)
Theorem voice_control_hidden_for_good (s : VoiceInput.state)
    (trace : list VoiceInput.event) :
  (VoiceInput.supported s = false ->
   VoiceInput.view (VoiceInput.run s trace) = None)
  /\ (VoiceInput.listening s = true ->
      forall available, VoiceInput.step s (VoiceInput.Press available) = s).
Proof.
  split.
  - revert s. induction trace as [|ev rest IH]; intros s Hs.
    + unfold VoiceInput.view. cbn. by rewrite Hs.
    + cbn. apply IH.
      destruct ev; cbn; try assumption.
      destruct (VoiceInput.can_press s); [|assumption].
      unfold VoiceInput.startListening. by destruct available.
  - intros Hl available. unfold VoiceInput.step, VoiceInput.can_press, VoiceInput.view.
    destruct (VoiceInput.supported s); cbn; [|reflexivity]. by rewrite Hl.
Qed.

Lemma voice_control_hidden_for_good_witness :
  VoiceInput.view
    (VoiceInput.run VoiceInput.initial
       [VoiceInput.Press false; VoiceInput.Press true; VoiceInput.OnStart;
        VoiceInput.OnEnd]) = None
  /\ VoiceInput.step (VoiceInput.onstart VoiceInput.initial) (VoiceInput.Press true)
     = VoiceInput.onstart VoiceInput.initial.
Proof.
  split.
  - apply (voice_control_hidden_for_good
             (VoiceInput.step VoiceInput.initial (VoiceInput.Press false))
             [VoiceInput.Press true; VoiceInput.OnStart; VoiceInput.OnEnd]).
    reflexivity.
  - apply (voice_control_hidden_for_good (VoiceInput.onstart VoiceInput.initial) []).
    reflexivity.
Defined.

(** ** App and Sidebar, continued *)

Section Pages.
Import App Sidebar.

Lemma reconcile_same (a : App.state) (chat : option ChatBox.state) :
  chat_mounted a = bool_decide (is_Some chat) -> reconcile a a chat = chat.
Proof.
  intros Hc. unfold reconcile. rewrite Hc, Z.eqb_refl.
  destruct chat as [c|]; [reflexivity|].
  rewrite bool_decide_eq_false_2; [reflexivity|]. by intros [? ?].
Qed.

Lemma without_absent (chatId : chat_id) (history : list chat) :
  (forall c, In c history -> id c <> chatId) -> without chatId history = history.
Proof.
  unfold without.
  induction history as [|c rest IH]; intros Habsent; [reflexivity|]. cbn.
  rewrite bool_decide_eq_false_2 by (apply Habsent; by left). cbn.
  rewrite IH; [reflexivity|]. intros c' Hc'. apply Habsent. by right.
Qed.

Lemma without_twice (a b : chat_id) (history : list chat) :
  without a (without b history) = without b (without a history).
Proof.
  unfold without.
  induction history as [|c rest IH]; [reflexivity|]. cbn.
  destruct (bool_decide (id c = a)) eqn:Ha, (bool_decide (id c = b)) eqn:Hb;
    cbn; rewrite ?Ha, ?Hb; cbn; by rewrite IH.
Qed.

End Pages.

(** X17.  For every state of App exactly one of the four panels is on
    the page: the hero, the ChatBox, the image uploader or the camera. *)
Theorem exactly_one_panel (a : App.state) :
  List.length
    (List.filter (fun shown : bool => shown)
       [App.hero_shown a; App.chat_mounted a; App.image_mounted a;
        App.camera_mounted a]) = 1%nat.
Proof.
  unfold App.hero_shown, App.chat_mounted, App.image_mounted, App.camera_mounted.
  by destruct (App.showHero a), (App.activeTab a).
Qed.

(** X18.  The ChatBox is on the page only while the hero is hidden, so the
    first-message callback App hands to it, which hides the hero, never
    changes App. *)
Theorem first_message_callback_changes_nothing (a : App.state) :
  App.chat_mounted a = true -> App.handleStartChat a = a.
Proof.
  unfold App.chat_mounted, App.handleStartChat. destruct a as [tab hero trigger].
  cbn. destruct hero, tab; try discriminate; reflexivity.
Qed.

Lemma first_message_callback_changes_nothing_witness :
  App.handleStartChat (App.handleStartChat App.initial)
  = App.handleStartChat App.initial.
Proof.
  apply (first_message_callback_changes_nothing (App.handleStartChat App.initial)).
  reflexivity.
Defined.

(** X19.  The conversation lives only as long as the ChatBox is on the
    page: switching to another tab, or going back to the hero, drops it,
    and coming back to the chat shows an empty ChatBox whatever the
    conversation held. *)
Theorem leaving_chat_drops_conversation (a : App.state) (c : ChatBox.state) :
  App.chat_mounted a = true ->
  (forall t, t <> App.Chat ->
     let away := App.update (App.setActiveTab t) a (Some c) in
     snd away = None
     /\ App.update (App.setActiveTab App.Chat) (fst away) (snd away)
        = (a, Some ChatBox.initial))
  /\ (let away := App.update App.backToHome a (Some c) in
      snd away = None
      /\ App.update App.handleStartChat (fst away) (snd away)
         = (a, Some ChatBox.initial)).
Proof.
  unfold App.chat_mounted. destruct a as [tab hero trigger]. cbn.
  destruct hero, tab; try discriminate. intros _. cbv zeta. split.
  - intros t Ht. unfold App.update, App.reconcile. cbn.
    destruct t; [congruence| |]; cbn; by rewrite mount_is_empty.
  - unfold App.update, App.reconcile. cbn. by rewrite mount_is_empty.
Qed.

Lemma leaving_chat_drops_conversation_witness :
  let a := App.handleStartChat App.initial in
  let c := ChatBox.setInput "Panadol" ChatBox.initial in
  let away := App.update (App.setActiveTab App.ImageTab) a (Some c) in
  App.update (App.setActiveTab App.Chat) (fst away) (snd away)
  = (a, Some ChatBox.initial).
Proof.
  cbv zeta.
  apply (leaving_chat_drops_conversation (App.handleStartChat App.initial)
           (ChatBox.setInput "Panadol" ChatBox.initial) eq_refl);
    discriminate.
Defined.

(** X20.  Deleting a chat other than the current one leaves App and the
    ChatBox as they are; the history loses the entries with that id and
    the store is rewritten.  As App gives Sidebar no current chat, this is
    what deleting any chat that has an id does. *)
Theorem delete_other_chat_keeps_session (p : Sidebar.props)
    (chatId : Sidebar.chat_id) (w : Sidebar.page) :
  Sidebar.currentChatId p <> chatId ->
  Sidebar.consistent w ->
  Sidebar.handleDeleteChat p chatId w
  = {| Sidebar.chatHistory := Sidebar.without chatId (Sidebar.chatHistory w);
       Sidebar.localStorage :=
         <[Sidebar.history_key := Sidebar.without chatId (Sidebar.chatHistory w)]>
           (Sidebar.localStorage w);
       Sidebar.app := Sidebar.app w;
       Sidebar.chatbox := Sidebar.chatbox w |}.
Proof.
  intros Hother Hcons. unfold Sidebar.handleDeleteChat.
  rewrite bool_decide_eq_false_2 by assumption.
  by rewrite reconcile_same.
Qed.

Lemma delete_other_chat_keeps_session_witness :
  let first := {| Sidebar.id := Sidebar.IdNum 1; Sidebar.title := "Panadol";
                  Sidebar.timestamp := "10:00" |} in
  let w := {| Sidebar.chatHistory := [first];
              Sidebar.localStorage := {[ Sidebar.history_key := [first] ]};
              Sidebar.app := App.handleStartChat App.initial;
              Sidebar.chatbox := Some (ChatBox.setInput "Brufen" ChatBox.initial) |} in
  Sidebar.chatbox (Sidebar.handleDeleteChat Sidebar.props_from_app (Sidebar.IdNum 1) w)
  = Some (ChatBox.setInput "Brufen" ChatBox.initial).
Proof.
  cbv zeta.
  match goal with
  | |- Sidebar.chatbox (Sidebar.handleDeleteChat ?p ?i ?w) = _ =>
      rewrite (delete_other_chat_keeps_session p i w)
  end.
  - reflexivity.
  - discriminate.
  - reflexivity.
Defined.

(** X21.  The history survives a reload: mounting Sidebar on a store loads
    the history saved under the history key, or the empty history when
    none was saved, and leaves that same history in the store; and
    mounting on a store that a history was saved to loads that history
    and leaves the store as it is.  On a first run the empty history is
    written. *)
Theorem history_survives_remount (store : gmap string (list Sidebar.chat))
    (history : list Sidebar.chat) :
  fst (Sidebar.mount store) = default [] (store !! Sidebar.history_key)
  /\ snd (Sidebar.mount store)
     = <[Sidebar.history_key := fst (Sidebar.mount store)]> store
  /\ Sidebar.mount (Sidebar.save_effect history store)
     = (history, Sidebar.save_effect history store).
Proof.
  unfold Sidebar.mount, Sidebar.save_effect. split; [|split].
  - by destruct (store !! Sidebar.history_key).
  - destruct (store !! Sidebar.history_key); cbn; [|reflexivity].
    by rewrite insert_insert_eq.
  - rewrite lookup_insert_eq. by rewrite !insert_insert_eq.
Qed.

(** X22.  Deleting from the history keeps the remaining chats in their
    order, removes nothing when no chat has the id, and does not depend on
    the order of two deletions; deleting the same id again changes
    nothing. *)
Theorem delete_from_history_composes (a b : Sidebar.chat_id)
    (history : list Sidebar.chat) :
  sublist (Sidebar.without a history) history
  /\ ((forall c, In c history -> Sidebar.id c <> a) ->
      Sidebar.without a history = history)
  /\ Sidebar.without a (Sidebar.without b history)
     = Sidebar.without b (Sidebar.without a history)
  /\ Sidebar.without a (Sidebar.without a history) = Sidebar.without a history.
Proof.
  split; [apply filter_sublist|]. split; [apply without_absent|].
  split; [apply without_twice|].
  apply without_absent. intros c Hc. by apply without_sound in Hc as [_ Hc].
Qed.

Lemma delete_from_history_composes_witness :
  let first := {| Sidebar.id := Sidebar.IdNum 1; Sidebar.title := "Panadol";
                  Sidebar.timestamp := "10:00" |} in
  Sidebar.without (Sidebar.IdStr "1") [first] = [first].
Proof.
  cbv zeta.
  apply (delete_from_history_composes (Sidebar.IdStr "1") (Sidebar.IdNum 1)).
  intros c [<- | []]. discriminate.
Defined.
